(** * Recipe generator: the generate-recipe endpoint and the page's handlers

  A shallow embedding of the two TypeScript sources that carry the
  behaviour of the application:

  - the route handler [POST] of [app/api/generate-recipe/route.ts]
    (kept in the source tree as [src/unnamed/part_000]);
  - the state and the handlers of [HomePage] in [src/app/page.tsx].

  JavaScript values are embedded as the inductive type [value]; a
  computation that may throw returns a [Completion]; the asynchronous
  handlers, which talk to their environment (the request body, the
  provider, the React state setters, [fetch], the clock, the console),
  are finite interaction programs [Prog] that are run against a world. *)

From Stdlib Require Import String Ascii List ZArith Bool Lia DecimalString.
Import ListNotations.
Local Open Scope string_scope.
Set Warnings "-register-all".

(* ===================================================================== *)
(** * JavaScript strings *)
(* ===================================================================== *)

(** A string is kept as the bytes of its UTF-8 encoding.  The engine's
    [toLowerCase] is the Unicode case mapping; it is not defined here, and
    the code that calls it takes it as a parameter.  On text made of ASCII
    characters only it is the map [ascii_lower], which turns the letters
    [A]..[Z] into [a]..[z] and leaves every other character as it is. *)
Module JsString.

Definition ascii_char (c : ascii) : bool := (nat_of_ascii c <? 128)%nat.

(** The text is made of ASCII characters only. *)
Fixpoint ascii_only (s : string) : bool :=
  match s with
  | EmptyString => true
  | String c r => ascii_char c && ascii_only r
  end.

Definition ascii_lower_char (c : ascii) : ascii :=
  let n := nat_of_ascii c in
  if (65 <=? n)%nat && (n <=? 90)%nat then ascii_of_nat (n + 32) else c.

Fixpoint ascii_lower (s : string) : string :=
  match s with
  | EmptyString => EmptyString
  | String c r => String (ascii_lower_char c) (ascii_lower r)
  end.

(** What is known of a function that stands for [toLowerCase]. *)
Definition lowers_ascii (toLowerCase : string -> string) : Prop :=
  forall s, ascii_only s = true -> toLowerCase s = ascii_lower s.

(** [s.startsWith(t)] *)
Definition startsWith (s t : string) : bool := String.prefix t s.

(** [s.includes(t)]: [t] starts at some position of [s]. *)
Fixpoint includes (s t : string) : bool :=
  startsWith s t ||
  match s with
  | EmptyString => false
  | String _ r => includes r t
  end.

(** Number of positions of [s] at which [t] starts. *)
Fixpoint occurrences (s t : string) : nat :=
  (if startsWith s t then 1 else 0) +
  match s with
  | EmptyString => 0
  | String _ r => occurrences r t
  end.

(** Decimal rendering of an integer, as a template literal or
    [String(n)] renders it. *)
Definition of_Z (n : Z) : string := NilZero.string_of_int (Z.to_int n).

(** The empty string is the only falsy string. *)
Definition truthy (s : string) : bool :=
  match s with EmptyString => false | _ => true end.

End JsString.

(* ===================================================================== *)
(** * JavaScript values, exceptions and completions *)
(* ===================================================================== *)

(** The values that [JSON.parse] produces, and [undefined].  Numbers are
  kept as integers: the handlers never compute with the numbers of a
  body, they only test and print them.  An object is the list of its own
  properties; the first binding of a key is the property. *)
Inductive value : Type :=
| VUndefined
| VNull
| VBool (b : bool)
| VNum (n : Z)
| VStr (s : string)
| VArr (elems : list value)
| VObj (props : list (string * value)).

(** What a [throw] carries: an instance of [Error] with its [message], or
  any other value. *)
Inductive thrown : Type :=
| ThrownError (message : string)
| ThrownValue (v : value).

(** The outcome of evaluating an expression that may throw. *)
Inductive Completion (A : Type) : Type :=
| Normal (a : A)
| Abrupt (t : thrown).
Arguments Normal {A} a.
Arguments Abrupt {A} t.

Definition cbind {A B} (c : Completion A) (f : A -> Completion B) : Completion B :=
match c with
| Normal a => f a
| Abrupt t => Abrupt t
end.

Module Js.

(** Texts of the [TypeError]s that the engine raises (V8's wording). *)
Definition read_of_nullish (v : value) (key : string) : string :=
  "Cannot read properties of " ++
  match v with VNull => "null" | _ => "undefined" end ++
  " (reading '" ++ key ++ "')".

Definition destructure_of_nullish (v : value) (key : string) : string :=
  "Cannot destructure property '" ++ key ++ "' of '(intermediate value)' as it is " ++
  match v with VNull => "null" | _ => "undefined" end ++ ".".

Definition not_primitive : string := "Cannot convert object to primitive value".

(** [ToBoolean] *)
Definition truthy (v : value) : bool :=
  match v with
  | VUndefined | VNull => false
  | VBool b => b
  | VNum n => negb (n =? 0)%Z
  | VStr s => JsString.truthy s
  | VArr _ | VObj _ => true
  end.

Definition nullish (v : value) : bool :=
  match v with VUndefined | VNull => true | _ => false end.

Fixpoint own (props : list (string * value)) (key : string) : option value :=
  match props with
  | [] => None
  | (k, v) :: rest => if String.eqb k key then Some v else own rest key
  end.

(** [v.key] on a value that is not [null] or [undefined], for a [key]
    that no prototype defines ([name], [ingredients], [error],
    [recipeText]): the own property of an object, [undefined] on
    everything else. *)
Definition prop (v : value) (key : string) : value :=
  match v with
  | VObj props => match own props key with Some x => x | None => VUndefined end
  | _ => VUndefined
  end.

(** [v.key] *)
Definition get (v : value) (key : string) : Completion value :=
  if nullish v then Abrupt (ThrownError (read_of_nullish v key))
  else Normal (prop v key).

(** [const { key } = v] *)
Definition destructure (v : value) (key : string) : Completion value :=
  if nullish v then Abrupt (ThrownError (destructure_of_nullish v key))
  else Normal (prop v key).

(** [Array.isArray(v)] *)
Definition Array_isArray (v : value) : bool :=
  match v with VArr _ => true | _ => false end.

(** The elements of an array value (none for another value). *)
Definition elements (v : value) : list value :=
  match v with VArr l => l | _ => [] end.

(** [v.length] of an array value. *)
Definition Array_length (v : value) : Z := Z.of_nat (length (elements v)).

(** [ToString].  An array is rendered by [Array.prototype.join] with a
    comma, where [null] and [undefined] elements give the empty string.
    A parsed object has no callable [toString] of its own: it renders as
    [[object Object]] through [Object.prototype.toString], unless an own
    property [toString] hides that method, in which case the conversion
    finds no callable method returning a primitive and throws. *)
Fixpoint ToString (v : value) : Completion string :=
  match v with
  | VUndefined => Normal "undefined"
  | VNull => Normal "null"
  | VBool b => Normal (if b then "true" else "false")
  | VNum n => Normal (JsString.of_Z n)
  | VStr s => Normal s
  | VArr l =>
      cbind
        ((fix texts (l : list value) : Completion (list string) :=
            match l with
            | [] => Normal []
            | x :: r =>
                cbind (if nullish x then Normal "" else ToString x) (fun s =>
                cbind (texts r) (fun ss => Normal (s :: ss)))
            end) l)
        (fun ss => Normal (String.concat "," ss))
  | VObj props =>
      match own props "toString" with
      | Some _ => Abrupt (ThrownError not_primitive)
      | None => Normal "[object Object]"
      end
  end.

(** The text of one element inside [join]. *)
Definition element_text (x : value) : Completion string :=
  if nullish x then Normal "" else ToString x.

Fixpoint element_texts (l : list value) : Completion (list string) :=
  match l with
  | [] => Normal []
  | x :: r =>
      cbind (element_text x) (fun s =>
      cbind (element_texts r) (fun ss => Normal (s :: ss)))
  end.

(** [l.join(sep)] *)
Definition Array_join (l : list value) (sep : string) : Completion string :=
  cbind (element_texts l) (fun ss => Normal (String.concat sep ss)).

(** [l.map(f)] for a callback that may throw: the elements are visited
    in order and the first exception ends the traversal. *)
Fixpoint Array_map (f : value -> Completion value) (l : list value)
  : Completion (list value) :=
  match l with
  | [] => Normal []
  | x :: r =>
      cbind (f x) (fun y =>
      cbind (Array_map f r) (fun ys => Normal (y :: ys)))
  end.

(** The double quote character. *)
Definition dquote : string := String (ascii_of_nat 34) EmptyString.

Definition hex_digit (n : nat) : ascii :=
  if (n <? 10)%nat then ascii_of_nat (48 + n) else ascii_of_nat (87 + n).

(** [JSON.stringify] of one character of a string: the quote and the
    backslash are escaped, control characters are written with their
    short escape or as a four-digit unicode escape. *)
Definition escape_char (c : ascii) : string :=
  let n := nat_of_ascii c in
  if (n =? 34)%nat then String (ascii_of_nat 92) dquote
  else if (n =? 92)%nat then String (ascii_of_nat 92) (String (ascii_of_nat 92) EmptyString)
  else if (n =? 8)%nat then String (ascii_of_nat 92) "b"
  else if (n =? 9)%nat then String (ascii_of_nat 92) "t"
  else if (n =? 10)%nat then String (ascii_of_nat 92) "n"
  else if (n =? 12)%nat then String (ascii_of_nat 92) "f"
  else if (n =? 13)%nat then String (ascii_of_nat 92) "r"
  else if (n <? 32)%nat then
    String (ascii_of_nat 92)
      ("u00" ++ String (hex_digit (n / 16)) (String (hex_digit (n mod 16)) EmptyString))
  else String c EmptyString.

Fixpoint escape (s : string) : string :=
  match s with
  | EmptyString => EmptyString
  | String c r => escape_char c ++ escape r
  end.

(** [JSON.stringify(s)] of a string. *)
Definition quote (s : string) : string := dquote ++ escape s ++ dquote.

End Js.

(* ===================================================================== *)
(** * Interaction programs *)
(* ===================================================================== *)

(** A handler is a finite tree: it returns, or performs an action of its
  environment and goes on with the answer.  [await] points, calls of the
  state setters and console output are all actions, so that what a
  handler does before, between and after them can be read off the
  program. *)
Section Programs.

Context {action : Type} {answer : action -> Type}.

Inductive Prog (R : Type) : Type :=
| Ret (r : R)
| Do (a : action) (k : answer a -> Prog R).

Arguments Ret {R} r.
Arguments Do {R} a k.

Fixpoint bind {A B} (p : Prog A) (f : A -> Prog B) : Prog B :=
  match p with
  | Ret a => f a
  | Do a k => Do a (fun x => bind (k x) f)
  end.

(** Perform one action and return its answer. *)
Definition perform (a : action) : Prog (answer a) := Do a (fun x => Ret x).

(** Programs that may throw: the result is a completion, and sequencing
    stops at the first abrupt one. *)
Definition bindE {A B} (p : Prog (Completion A)) (f : A -> Prog (Completion B))
  : Prog (Completion B) :=
  bind p (fun c => match c with
                   | Normal a => f a
                   | Abrupt t => Ret (Abrupt t)
                   end).

Definition ret {A} (a : A) : Prog (Completion A) := Ret (Normal a).

(** [try { p } catch (e) { h e }] *)
Definition try_catch {A} (p : Prog (Completion A)) (h : thrown -> Prog A) : Prog A :=
  bind p (fun c => match c with
                   | Normal a => Ret a
                   | Abrupt t => h t
                   end).

(** The same, for a [catch] clause that may itself throw. *)
Definition try_catchE {A} (p : Prog (Completion A)) (h : thrown -> Prog (Completion A))
  : Prog (Completion A) :=
  bind p (fun c => match c with
                   | Normal a => Ret (Normal a)
                   | Abrupt t => h t
                   end).

(** [try { p } finally { f }] *)
Definition try_finally {A} (p : Prog (Completion A)) (f : Prog unit)
  : Prog (Completion A) :=
  bind p (fun c => bind f (fun _ => Ret c)).

(** The actions a program performs, in order, when [h] answers them. *)
Fixpoint actions_of {R} (h : forall a, answer a) (p : Prog R) : list action :=
  match p with
  | Ret _ => []
  | Do a k => a :: actions_of h (k (h a))
  end.

(** The result of a program when [h] answers its actions. *)
Fixpoint result_of {R} (h : forall a, answer a) (p : Prog R) : R :=
  match p with
  | Ret r => r
  | Do a k => result_of h (k (h a))
  end.

End Programs.

Arguments Prog action answer R : clear implicits.
Arguments Ret {action answer R} r.
Arguments Do {action answer R} a k.

Declare Scope prog_scope.
Delimit Scope prog_scope with prog.
Notation "'let?' x ':=' p 'in' q" := (bindE p (fun x => q))
  (at level 10, x name, p at level 100, q at level 200) : prog_scope.
Notation "'let!' x ':=' p 'in' q" := (bind p (fun x => q))
  (at level 10, x name, p at level 100, q at level 200) : prog_scope.
Notation "p ;; q" := (bind p (fun _ => q))
  (at level 100, q at level 200, right associativity) : prog_scope.

(* ===================================================================== *)
(** * The generate-recipe endpoint ([route.ts]) *)
(* ===================================================================== *)

Module Route.

(** ** Module-level constants (lines 5-18) *)

Definition MODEL_NAME : string := "gemini-1.5-flash".

(** [process.env.GEMINI_API_KEY || ""], from the value of the
    environment variable, if it is set. *)
Definition API_KEY (GEMINI_API_KEY : option string) : string :=
  match GEMINI_API_KEY with
  | Some k => if JsString.truthy k then k else ""
  | None => ""
  end.

(** The members of the SDK's enumerations that the route uses. *)
Inductive HarmCategory : Type :=
| HARM_CATEGORY_HARASSMENT
| HARM_CATEGORY_HATE_SPEECH
| HARM_CATEGORY_SEXUALLY_EXPLICIT
| HARM_CATEGORY_DANGEROUS_CONTENT.

Inductive HarmBlockThreshold : Type :=
| BLOCK_MEDIUM_AND_ABOVE.

Definition safetySettings : list (HarmCategory * HarmBlockThreshold) :=
  [ (HARM_CATEGORY_HARASSMENT, BLOCK_MEDIUM_AND_ABOVE);
    (HARM_CATEGORY_HATE_SPEECH, BLOCK_MEDIUM_AND_ABOVE);
    (HARM_CATEGORY_SEXUALLY_EXPLICIT, BLOCK_MEDIUM_AND_ABOVE);
    (HARM_CATEGORY_DANGEROUS_CONTENT, BLOCK_MEDIUM_AND_ABOVE) ].

(** ** What goes to the provider and what comes back *)

(** A decimal constant: [digits] divided by ten to the [scale]. *)
Record Decimal : Type := { digits : Z; scale : nat }.

Record GenerationConfig : Type := {
  temperature : Decimal;
  topK : Z;
  topP : Z;
  maxOutputTokens : Z
}.

(** One call [model.generateContent({ contents: [{ role, parts: [{ text }] }],
    generationConfig })] on the model built at line 18. *)
Record GenerateContentRequest : Type := {
  model : string;
  settings : list (HarmCategory * HarmBlockThreshold);
  role : string;
  prompt_text : string;
  generationConfig : GenerationConfig
}.

Record SafetyRating : Type := { category : string; probability : string }.

Record Candidate : Type := {
  finishReason : option string;
  safetyRatings : option (list SafetyRating)
}.

(** [text] is what the call [response.text()] does: it returns a string
    or throws. *)
Record EnhancedResponse : Type := {
  text : Completion string;
  candidates : option (list Candidate)
}.

Record GenerateContentResult : Type := { response : option EnhancedResponse }.

(** [JSON.stringify(safetyRatings)] *)
Definition stringify_rating (r : SafetyRating) : string :=
  "{" ++ Js.quote "category" ++ ":" ++ Js.quote (category r) ++ "," ++
  Js.quote "probability" ++ ":" ++ Js.quote (probability r) ++ "}".

Definition JSON_stringify (l : list SafetyRating) : string :=
  "[" ++ String.concat "," (map stringify_rating l) ++ "]".

(** ** The response of the route *)

Record HttpResponse : Type := { status : Z; body : value }.

(** [NextResponse.json(body, { status })]; the status is 200 when the
    call gives none. *)
Definition NextResponse_json (body : value) (status : Z) : HttpResponse :=
  {| status := status; body := body |}.

Definition error_body (msg : string) : value := VObj [("error", VStr msg)].

(** ** The actions of the handler *)

Inductive action : Type :=
| RequestJson
| GenerateContent (req : GenerateContentRequest)
| ConsoleError (msg : string) (detail : option thrown).

Definition answer (a : action) : Type :=
  match a with
  | RequestJson => Completion value
  | GenerateContent _ => Completion GenerateContentResult
  | ConsoleError _ _ => unit
  end.

(** ** The prompt (lines 35-54) *)

Definition PROMPT_HEAD : string := "
      You are a helpful recipe assistant.
      Generate a simple recipe using ONLY the following ingredients: ".

Definition PROMPT_TAIL : string := ".
      Provide a title for the recipe, a list of the ingredients provided, and step-by-step instructions.
      Keep the instructions concise and easy to follow.
      If the ingredients don't seem sufficient for a meaningful recipe, suggest adding 1-2 common pantry staples (like salt, pepper, oil, water) if necessary, but prioritize using only the provided ingredients.
      Format the output clearly. Example:

      **Recipe Title**

      **Ingredients:**
      * Ingredient 1
      * Ingredient 2
      * ...

      **Instructions:**
      1. Step 1...
      2. Step 2...
      3. Step 3...
    ".

Definition prompt_of (ingredientNames : string) : string :=
  PROMPT_HEAD ++ ingredientNames ++ PROMPT_TAIL.

(** [response.candidates?.[0]] *)
Definition first_candidate (r : EnhancedResponse) : option Candidate :=
  match candidates r with
  | Some (c :: _) => Some c
  | _ => None
  end.

(** A finish reason passes the test [finishReason ? .. : ..] when it is
    there and is not the empty string. *)
Definition present (finishReason : option string) : bool :=
  match finishReason with
  | Some r => JsString.truthy r
  | None => false
  end.

(** [finishReason === 'SAFETY'] *)
Definition is_SAFETY (finishReason : option string) : bool :=
  match finishReason with
  | Some r => String.eqb r "SAFETY"
  | None => false
  end.

(** ** The handler (lines 20-118) *)

Local Open Scope prog_scope.

Definition POST (API_KEY : string) : Prog action answer HttpResponse :=
  if negb (JsString.truthy API_KEY) then
    Ret (NextResponse_json (error_body "API key not configured") 500)
  else
    try_catch
      (let? body := perform RequestJson in
       let? ingredients := Ret (Js.destructure body "ingredients") in
       if negb (Js.truthy ingredients) || negb (Js.Array_isArray ingredients)
          || (Js.Array_length ingredients =? 0)%Z
       then
         ret (NextResponse_json (error_body "Missing or invalid ingredients list") 400)
       else
         let? names := Ret (Js.Array_map (fun ing => Js.get ing "name")
                                         (Js.elements ingredients)) in
         let? ingredientNames := Ret (Js.Array_join names ", ") in
         let prompt := prompt_of ingredientNames in
         let generationConfig :=
           {| temperature := {| digits := 8; scale := 1 |};
              topK := 1; topP := 1; maxOutputTokens := 512 |} in
         let? result :=
           perform (GenerateContent
                      {| model := MODEL_NAME;
                         settings := safetySettings;
                         role := "user";
                         prompt_text := prompt;
                         generationConfig := generationConfig |}) in
         match response result with
         | None =>
             perform (ConsoleError "Gemini API Error: No response object received." None) ;;
             ret (NextResponse_json
                    (error_body "Failed to generate recipe. No response object from AI.") 500)
         | Some response =>
             let? t := Ret (text response) in
             if negb (JsString.truthy t) then
               perform (ConsoleError
                          "Gemini API Error: Response received but contains no text." None) ;;
               let finishReason :=
                 match first_candidate response with
                 | Some c => finishReason c
                 | None => None
                 end in
               let safetyRatings :=
                 match first_candidate response with
                 | Some c => safetyRatings c
                 | None => None
                 end in
               let reasonInfo :=
                 match finishReason with
                 | Some r => if JsString.truthy r
                             then " (Finish Reason: " ++ r ++ ")" else ""
                 | None => ""
                 end in
               let safetyInfo :=
                 match safetyRatings with
                 | Some l => " (Safety Ratings: " ++ JSON_stringify l ++ ")"
                 | None => ""
                 end in
               let errorMessage :=
                 if is_SAFETY finishReason then
                   "Failed to generate recipe due to safety settings."
                 else if present finishReason then
                   "Failed to generate recipe. " ++ reasonInfo
                 else
                   "Failed to generate recipe. The AI response was empty or blocked." in
               ret (NextResponse_json (error_body (errorMessage ++ safetyInfo)) 500)
             else
               let? recipeText := Ret (text response) in
               ret (NextResponse_json (VObj [("recipeText", VStr recipeText)]) 200)
         end)
      (fun error =>
         perform (ConsoleError "Error calling Gemini API:" (Some error)) ;;
         let errorMessage :=
           match error with
           | ThrownError message => message
           | ThrownValue (VStr s) => s
           | ThrownValue _ => "Unknown error"
           end in
         Ret (NextResponse_json
                (error_body ("Failed to generate recipe. " ++ errorMessage)) 500)).

(** ** Running the handler *)

(** The environment of one request: what [request.json()] gives, and
    how the provider answers a call. *)
Record World : Type := {
  request_json : Completion value;
  generateContent : GenerateContentRequest -> Completion GenerateContentResult
}.

Definition handle (w : World) (a : action) : answer a :=
  match a with
  | RequestJson => request_json w
  | GenerateContent req => generateContent w req
  | ConsoleError _ _ => tt
  end.

(** The response to a request, and what the handler did to produce it. *)
Definition respond (key : string) (w : World) : HttpResponse :=
  result_of (handle w) (POST key).

Definition trace (key : string) (w : World) : list action :=
  actions_of (handle w) (POST key).

(** The prompts sent to the provider. *)
Definition prompts (l : list action) : list string :=
  flat_map (fun a => match a with
                     | GenerateContent req => [prompt_text req]
                     | _ => []
                     end) l.

(** ** Reading a run *)

(** The request that carries a prompt. *)
Definition request_with (prompt : string) : GenerateContentRequest :=
  {| model := MODEL_NAME;
     settings := safetySettings;
     role := "user";
     prompt_text := prompt;
     generationConfig :=
       {| temperature := {| digits := 8; scale := 1 |};
          topK := 1; topP := 1; maxOutputTokens := 512 |} |}.

(** The text that an element of the array contributes to the list of
    names: its [name] when that is a string, nothing when it has none. *)
Definition name_text (e : value) : string :=
  match Js.prop e "name" with
  | VStr n => n
  | _ => ""
  end.

(** An element whose [name] is a string or is missing. *)
Definition loosely_named (e : value) : Prop :=
  Js.nullish e = false /\
  (Js.prop e "name" = VUndefined \/ exists n, Js.prop e "name" = VStr n).

(** An element that carries the given name. *)
Definition named (n : string) (e : value) : Prop :=
  Js.nullish e = false /\ Js.prop e "name" = VStr n.

(** [response.candidates?.[0]?.finishReason] and
    [response.candidates?.[0]?.safetyRatings] *)
Definition finishReason_of (r : EnhancedResponse) : option string :=
  match first_candidate r with
  | Some c => finishReason c
  | None => None
  end.

Definition safetyRatings_of (r : EnhancedResponse) : option (list SafetyRating) :=
  match first_candidate r with
  | Some c => safetyRatings c
  | None => None
  end.

(** The diagnostic that the safety ratings add to a message. *)
Definition safetyInfo_of (ratings : option (list SafetyRating)) : string :=
  match ratings with
  | Some l => " (Safety Ratings: " ++ JSON_stringify l ++ ")"
  | None => ""
  end.

(** The detail that the [catch] clause reads off a thrown value. *)
Definition detail_of (error : thrown) : string :=
  match error with
  | ThrownError message => message
  | ThrownValue (VStr s) => s
  | ThrownValue _ => "Unknown error"
  end.

(** ** Example requests *)

(** A request for a recipe with rice, sent while the provider is
    unreachable. *)
Definition any_request : World :=
  {| request_json := Normal (VObj [("ingredients", VArr [VObj [("name", VStr "Rice")]])]);
     generateContent := fun _ => Abrupt (ThrownError "fetch failed") |}.


(** A request for a recipe with salt alone. *)
Definition salt_request : World :=
  {| request_json := Normal (VObj [("ingredients", VArr [VObj [("name", VStr "salt")]])]);
     generateContent := fun _ => Abrupt (ThrownError "fetch failed") |}.

(** A request for a recipe with the two ingredients of the first scenario. *)
Definition chicken_rice_request
  (provider : GenerateContentRequest -> Completion GenerateContentResult) : World :=
  {| request_json :=
       Normal (VObj [("ingredients",
                      VArr [VObj [("id", VStr "1"); ("name", VStr "Chicken")];
                            VObj [("id", VStr "2"); ("name", VStr "Rice")]])]);
     generateContent := provider |}.

(** A provider that answers with an empty text and the given finish
    reason and ratings. *)
Definition empty_answer (reason : option string) (ratings : option (list SafetyRating))
  : GenerateContentRequest -> Completion GenerateContentResult :=
  fun _ =>
    Normal {| response :=
                Some {| text := Normal "";
                        candidates := Some [ {| finishReason := reason;
                                                safetyRatings := ratings |} ] |} |}.

End Route.

(* ===================================================================== *)
(** * The page ([page.tsx]) *)
(* ===================================================================== *)

Module Page.

(** ** Data types (lines 10-20) *)

Record Ingredient : Type := { id : string; name : string }.

(** [recipeText] is declared a string; the handler stores the
    [recipeText] property of the parsed response body as it comes.
    [generatedAt] is a date, kept as its time value in milliseconds. *)
Record Recipe : Type := {
  recipe_id : string;
  ingredientsUsed : list Ingredient;
  recipeText : value;
  generatedAt : Z
}.

(** ** Initial static data (lines 23-38) *)

Definition INITIAL_INGREDIENTS : list Ingredient :=
  [ {| id := "1"; name := "Chicken" |}; {| id := "2"; name := "Rice" |};
    {| id := "3"; name := "Tomatoes" |}; {| id := "4"; name := "Onions" |};
    {| id := "5"; name := "Garlic" |}; {| id := "6"; name := "Bell Peppers" |};
    {| id := "7"; name := "Olive Oil" |}; {| id := "8"; name := "Pasta" |};
    {| id := "9"; name := "Eggs" |}; {| id := "10"; name := "Milk" |};
    {| id := "11"; name := "Cheese" |}; {| id := "12"; name := "Butter" |} ].

(** [loaded] is the value of [Date.now()] when the module is evaluated. *)
Definition INITIAL_RECIPE_HISTORY (loaded : Z) : list Recipe :=
  [ {| recipe_id := "hist_1";
       ingredientsUsed := firstn 2 INITIAL_INGREDIENTS;
       recipeText := VStr "A simple recipe for Chicken & Rice:
1. Cook rice.
2. Sauté chicken with onions and garlic.
3. Combine and serve.";
       generatedAt := loaded - 3600000 * 2 |} ].

(** ** State variables (lines 44-50) *)

(** [error] is declared [string | null]; the [catch] clause of
    [handleGenerateRecipe] stores [error.message || ..] of a caught value of
    type [any], so the state keeps a value ([VNull] for [null]). *)
Record State : Type := {
  ingredients : list Ingredient;
  newItemName : string;
  searchTerm : string;
  basket : list Ingredient;
  recipeHistory : list Recipe;
  isGenerating : bool;
  error : value
}.

Definition initial (loaded : Z) : State :=
  {| ingredients := INITIAL_INGREDIENTS;
     newItemName := "";
     searchTerm := "";
     basket := [];
     recipeHistory := INITIAL_RECIPE_HISTORY loaded;
     isGenerating := false;
     error := VNull |}.

(** The argument of a state setter: the next value, or a function of the
    previous one. *)
Inductive Update (A : Type) : Type :=
| To (a : A)
| By (f : A -> A).
Arguments To {A} a.
Arguments By {A} f.

Definition next {A} (u : Update A) (prev : A) : A :=
  match u with
  | To a => a
  | By f => f prev
  end.

(** ** What [fetch] sends and receives *)

Record RequestInit : Type := {
  method : string;
  headers : list (string * string);
  body : value
}.

(** A response: its status, and what [response.json()] gives. *)
Record Response : Type := { status : Z; json : Completion value }.

(** [response.ok] *)
Definition ok (r : Response) : bool := (200 <=? status r)%Z && (status r <=? 299)%Z.

(** ** The actions of the handlers *)

Inductive action : Type :=
| SetBasket (u : Update (list Ingredient))
| SetRecipeHistory (u : Update (list Recipe))
| SetIsGenerating (u : Update bool)
| SetError (u : Update value)
| Fetch (url : string) (init : RequestInit)
| ResponseJson (r : Response)
| DateNow
| NewDate
| ConsoleError (msg : string) (detail : thrown).

Definition answer (a : action) : Type :=
  match a with
  | Fetch _ _ => Completion Response
  | ResponseJson _ => Completion value
  | DateNow | NewDate => Z
  | _ => unit
  end.

(** ** Array helpers *)

(** [l.findIndex(p)]: the index of the first element that satisfies [p],
    or -1. *)
Fixpoint findIndex_from {A} (p : A -> bool) (l : list A) (i : Z) : Z :=
  match l with
  | [] => (-1)%Z
  | x :: r => if p x then i else findIndex_from p r (i + 1)%Z
  end.

Definition findIndex {A} (p : A -> bool) (l : list A) : Z := findIndex_from p l 0.

(** A relative index of [slice]: negative indexes count from the end,
    and the result is clamped to the array. *)
Definition clamp (len i : Z) : Z :=
  if (i <? 0)%Z then Z.max (len + i) 0 else Z.min i len.

(** [l.slice(start, end)] *)
Definition slice {A} (l : list A) (start stop : Z) : list A :=
  let len := Z.of_nat (length l) in
  let k := clamp len start in
  let final := clamp len stop in
  firstn (Z.to_nat (final - k)) (skipn (Z.to_nat k) l).

(** [l.slice(start)] *)
Definition slice_from {A} (l : list A) (start : Z) : list A :=
  slice l start (Z.of_nat (length l)).

(** ** Handlers of the basket (lines 71-94) *)

Local Open Scope prog_scope.

Definition handleClearBasket : Prog action answer unit :=
  perform (SetBasket (To [])) ;;
  perform (SetError (To VNull)).

Definition handleAddToBasket (itemToAdd : Ingredient) : Prog action answer unit :=
  perform (SetError (To VNull)) ;;
  perform (SetBasket (By (fun prevBasket => (prevBasket ++ [itemToAdd])%list))).

Definition handleRemoveFromBasket (idToRemove : string) : Prog action answer unit :=
  perform (SetBasket (By (fun prevBasket =>
    let indexToRemove := findIndex (fun item => String.eqb (id item) idToRemove) prevBasket in
    if negb (indexToRemove =? -1)%Z then
      (slice prevBasket 0 indexToRemove ++ slice_from prevBasket (indexToRemove + 1))%list
    else prevBasket))).

(** ** Recipe generation (lines 97-137) *)

(** The JSON document that [JSON.stringify] writes for an ingredient;
    the request body is kept as the document it denotes. *)
Definition ingredient_json (i : Ingredient) : value :=
  VObj [("id", VStr (id i)); ("name", VStr (name i))].

(** [error.message] of a caught value. *)
Definition message_of (error : thrown) : Completion value :=
  match error with
  | ThrownError message => Normal (VStr message)
  | ThrownValue v => Js.get v "message"
  end.

(** The handler is a closure of the render in which it was created: it
    reads [basket] from that render's state, before and after its [await]
    points. *)
Definition handleGenerateRecipe (render : State) : Prog action answer (Completion unit) :=
  let basket := basket render in
  if (Z.of_nat (length basket) =? 0)%Z then
    perform (SetError (To (VStr "Your basket is empty. Add some ingredients first!"))) ;;
    ret tt
  else
    perform (SetError (To VNull)) ;;
    perform (SetIsGenerating (To true)) ;;
    try_finally
      (try_catchE
         (let? response :=
            perform (Fetch "/api/generate-recipe"
                       {| method := "POST";
                          headers := [("Content-Type", "application/json")];
                          body := VObj [("ingredients",
                                         VArr (map ingredient_json basket))] |}) in
          let? data := perform (ResponseJson response) in
          let? _ :=
            (if negb (ok response) then
               let? e := Ret (Js.get data "error") in
               let? message :=
                 Ret (Js.ToString
                        (if Js.truthy e then e
                         else VStr ("HTTP error! status: "
                                    ++ JsString.of_Z (status response)))) in
               Ret (Abrupt (ThrownError message))
             else ret tt) in
          let! now := perform DateNow in
          let? text := Ret (Js.get data "recipeText") in
          let! date := perform NewDate in
          let newRecipe :=
            {| recipe_id := "recipe_" ++ JsString.of_Z now;
               ingredientsUsed := basket;
               recipeText := text;
               generatedAt := date |} in
          perform (SetRecipeHistory (By (fun prevHistory => newRecipe :: prevHistory))) ;;
          perform (SetBasket (To [])) ;;
          ret tt)
         (fun error =>
            perform (ConsoleError "Failed to generate recipe:" error) ;;
            let? m := Ret (message_of error) in
            perform (SetError
                       (To (if Js.truthy m then m
                            else VStr "An unexpected error occurred while generating the recipe."))) ;;
            ret tt))
      (perform (SetIsGenerating (To false))).

(** ** Search (lines 140-142) *)

Section Search.

(** [String.prototype.toLowerCase] *)
Variable toLowerCase : string -> string.

Definition filteredIngredients (s : State) : list Ingredient :=
  filter (fun ingredient =>
            JsString.includes (toLowerCase (name ingredient))
                              (toLowerCase (searchTerm s)))
         (ingredients s).

End Search.

(** ** Running a handler *)

(** The environment of the page: how a request is answered, what the
    clock shows, and what the user's other actions do to the state while a
    handler is suspended in an [await]. *)
Record World : Type := {
  fetch : string -> RequestInit -> Completion Response;
  Date_now : Z;
  new_Date : Z;
  meanwhile : action -> State -> State
}.

Definition reply (w : World) (a : action) : answer a :=
  match a with
  | Fetch url init => fetch w url init
  | ResponseJson r => json r
  | DateNow => Date_now w
  | NewDate => new_Date w
  | _ => tt
  end.

Definition set_basket (b : list Ingredient) (s : State) : State :=
  {| ingredients := ingredients s; newItemName := newItemName s;
     searchTerm := searchTerm s; basket := b;
     recipeHistory := recipeHistory s; isGenerating := isGenerating s;
     error := error s |}.

Definition set_recipeHistory (h : list Recipe) (s : State) : State :=
  {| ingredients := ingredients s; newItemName := newItemName s;
     searchTerm := searchTerm s; basket := basket s;
     recipeHistory := h; isGenerating := isGenerating s;
     error := error s |}.

Definition set_isGenerating (g : bool) (s : State) : State :=
  {| ingredients := ingredients s; newItemName := newItemName s;
     searchTerm := searchTerm s; basket := basket s;
     recipeHistory := recipeHistory s; isGenerating := g;
     error := error s |}.

Definition set_error (e : value) (s : State) : State :=
  {| ingredients := ingredients s; newItemName := newItemName s;
     searchTerm := searchTerm s; basket := basket s;
     recipeHistory := recipeHistory s; isGenerating := isGenerating s;
     error := e |}.

(** The effect of one action on the state: a setter stores the next
    value; during an [await] the state is whatever the user makes of it. *)
Definition step (w : World) (a : action) (s : State) : State :=
  match a with
  | SetBasket u => set_basket (next u (basket s)) s
  | SetRecipeHistory u => set_recipeHistory (next u (recipeHistory s)) s
  | SetIsGenerating u => set_isGenerating (next u (isGenerating s)) s
  | SetError u => set_error (next u (error s)) s
  | Fetch _ _ | ResponseJson _ => meanwhile w a s
  | DateNow | NewDate | ConsoleError _ _ => s
  end.

Fixpoint exec {R} (w : World) (p : Prog action answer R) (s : State) : State :=
  match p with
  | Ret _ => s
  | Do a k => exec w (k (reply w a)) (step w a s)
  end.

(** The user triggers a handler of the current render. *)
Definition generate (w : World) (s : State) : State :=
  exec w (handleGenerateRecipe s) s.

Definition generate_trace (w : World) (s : State) : list action :=
  actions_of (reply w) (handleGenerateRecipe s).

(** A world in which nothing else happens while a handler is suspended. *)
Definition idle (w : World) : Prop := forall a s, meanwhile w a s = s.

(** ** The page served by the route *)

(** The [fetch] of a page whose request is answered by the route handler,
    run with the given key and provider. *)
Definition served (key : string)
  (provider : Route.GenerateContentRequest -> Completion Route.GenerateContentResult)
  (url : string) (init : RequestInit) : Completion Response :=
  let r := Route.respond key {| Route.request_json := Normal (body init);
                                Route.generateContent := provider |} in
  Normal {| status := Route.status r; json := Normal (Route.body r) |}.

(** ** Reading a run of the page *)

(** [basket.length], the count shown next to the basket. *)
Definition count (s : State) : nat := length (basket s).

(** The user adds the items one after the other. *)
Definition add_all (w : World) (items : list Ingredient) (s : State) : State :=
  fold_left (fun st item => exec w (handleAddToBasket item) st) items s.

Definition remove (w : World) (idToRemove : string) (s : State) : State :=
  exec w (handleRemoveFromBasket idToRemove) s.

Definition endpoint : string := "/api/generate-recipe".

(** The request that the handler of a render sends. *)
Definition request_for (s : State) : RequestInit :=
  {| method := "POST";
     headers := [("Content-Type", "application/json")];
     body := VObj [("ingredients", VArr (map ingredient_json (basket s)))] |}.

(** The state in which the handler suspends at its first [await]. *)
Definition suspended (s : State) : State :=
  set_isGenerating true (set_error VNull s).

(** The state in which the handler resumes after its two [await]s on a
    response: the suspended state, as the user's actions have left it. *)
Definition resumed (w : World) (s : State) (r : Response) : State :=
  meanwhile w (ResponseJson r)
    (meanwhile w (Fetch endpoint (request_for s)) (suspended s)).

(** The route's world for the request of a render. *)
Definition request_world
  (provider : Route.GenerateContentRequest -> Completion Route.GenerateContentResult)
  (s : State) : Route.World :=
  {| Route.request_json := Normal (body (request_for s));
     Route.generateContent := provider |}.

(** The response that the page receives from the route. *)
Definition response_of (r : Route.HttpResponse) : Response :=
  {| status := Route.status r; json := Normal (Route.body r) |}.

(** ** Example pages *)

(** A page that cannot reach its endpoint; the basket handlers do not
    depend on the world. *)
Definition offline : World :=
  {| fetch := fun _ _ => Abrupt (ThrownError "Failed to fetch");
     Date_now := 0; new_Date := 0;
     meanwhile := fun _ st => st |}.

(** The first scenario: Chicken and Rice in the basket, a provider that
    returns a recipe text, and a user who waits. *)
Definition chicken_rice : State :=
  set_basket (firstn 2 INITIAL_INGREDIENTS) (initial 0).

(** A provider whose response gives the text [t] and one candidate with
    the given finish reason. *)
Definition answering (t : Completion string) (reason : option string)
  : Route.GenerateContentRequest -> Completion Route.GenerateContentResult :=
  fun _ =>
    Normal {| Route.response :=
                Some {| Route.text := t;
                        Route.candidates :=
                          Some [ {| Route.finishReason := reason;
                                    Route.safetyRatings := None |} ] |} |}.

(** A page served by the route with a key and the given provider, whose
    user does nothing while a request is in flight. *)
Definition waiting
  (provider : Route.GenerateContentRequest -> Completion Route.GenerateContentResult)
  : World :=
  {| fetch := served "key" provider;
     Date_now := 1700000000000; new_Date := 1700000000001;
     meanwhile := fun _ st => st |}.

End Page.

(* ===================================================================== *)
(** * The pantry and the controls of the page ([page.tsx]) *)
(* ===================================================================== *)

(** [s.trim()] takes the white space and the line terminators of
    ECMAScript off both ends of a string.  On the UTF-8 bytes these are the
    characters of one byte U+0009 to U+000D and U+0020, of two bytes
    U+00A0, and of three bytes U+1680, U+2000 to U+200A, U+2028, U+2029,
    U+202F, U+205F, U+3000 and U+FEFF. *)
Module JsTrim.

(** A white space or line terminator of one byte: U+0009 to U+000D and
    U+0020. *)
Definition ws1 (a : ascii) : bool :=
  let n := nat_of_ascii a in
  ((9 <=? n)%nat && (n <=? 13)%nat) || (n =? 32)%nat.

(** Of two bytes: U+00A0. *)
Definition ws2 (a b : ascii) : bool :=
  (nat_of_ascii a =? 194)%nat && (nat_of_ascii b =? 160)%nat.

(** Of three bytes: U+1680, U+2000 to U+200A, U+2028, U+2029, U+202F,
    U+205F, U+3000 and U+FEFF. *)
Definition ws3 (a b c : ascii) : bool :=
  let x := nat_of_ascii a in
  let y := nat_of_ascii b in
  let z := nat_of_ascii c in
  ((x =? 225) && (y =? 154) && (z =? 128))%nat
  || ((x =? 226)%nat && (y =? 128)%nat
      && (((128 <=? z)%nat && (z <=? 138)%nat)
          || (z =? 168)%nat || (z =? 169)%nat || (z =? 175)%nat))
  || ((x =? 226) && (y =? 129) && (z =? 159))%nat
  || ((x =? 227) && (y =? 128) && (z =? 128))%nat
  || ((x =? 239) && (y =? 187) && (z =? 191))%nat.

(** The text after a leading white space character, if there is one. *)
Definition skip (s : string) : option string :=
  match s with
  | String a r =>
      if ws1 a then Some r else
      match r with
      | String b r' =>
          if ws2 a b then Some r' else
          match r' with
          | String c r'' => if ws3 a b c then Some r'' else None
          | EmptyString => None
          end
      | EmptyString => None
      end
  | EmptyString => None
  end.

(** [s.trimStart()] *)
Fixpoint trimStart (s : string) : string :=
  match s with
  | String a r =>
      if ws1 a then trimStart r else
      match r with
      | String b r' =>
          if ws2 a b then trimStart r' else
          match r' with
          | String c r'' => if ws3 a b c then trimStart r'' else s
          | EmptyString => s
          end
      | EmptyString => s
      end
  | EmptyString => EmptyString
  end.

(** A string of white space only. *)
Fixpoint blank (s : string) : bool :=
  match s with
  | String a r =>
      if ws1 a then blank r else
      match r with
      | String b r' =>
          if ws2 a b then blank r' else
          match r' with
          | String c r'' => if ws3 a b c then blank r'' else false
          | EmptyString => false
          end
      | EmptyString => false
      end
  | EmptyString => true
  end.

(** [s.trimEnd()]: the text up to the white space that ends it. *)
Fixpoint trimEnd (s : string) : string :=
  match s with
  | EmptyString => EmptyString
  | String a r => if blank s then EmptyString else String a (trimEnd r)
  end.

(** [s.trim()] *)
Definition trim (s : string) : string := trimEnd (trimStart s).

End JsTrim.

Module Pantry.
Import Page.

(** ** The actions of the pantry handlers *)

(** The handlers of the pantry call the setters of the catalog, of the
    input field and of the search field, beside the actions of [Page]. *)
Inductive action : Type :=
| Basket (a : Page.action)
| SetIngredients (u : Update (list Ingredient))
| SetNewItemName (u : Update string)
| SetSearchTerm (u : Update string).

Definition answer (a : action) : Type :=
  match a with
  | Basket b => Page.answer b
  | _ => unit
  end.

Local Open Scope prog_scope.

(** ** Adding an ingredient to the catalog (lines 58-70) *)

Definition handleAddItem (render : State) : Prog action answer unit :=
  let newItemName := newItemName render in
  if negb (JsString.truthy (JsTrim.trim newItemName)) then
    perform (Basket (SetError (To (VStr "Please enter an ingredient name."))))
  else
    perform (Basket (SetError (To VNull))) ;;
    let! now := perform (Basket DateNow) in
    let newItem :=
      {| id := JsString.of_Z now;
         name := JsTrim.trim newItemName |} in
    perform (SetIngredients (By (fun prevIngredients => newItem :: prevIngredients))) ;;
    perform (SetNewItemName (To "")).

(** ** The input fields (lines 168, 192) *)

(** [onChange] of the new-item input. *)
Definition changeNewItemName (typed : string) : Prog action answer unit :=
  perform (SetNewItemName (To typed)).

(** [onChange] of the search input. *)
Definition changeSearchTerm (typed : string) : Prog action answer unit :=
  perform (SetSearchTerm (To typed)).

(** ** What the render shows (lines 231, 277, 283) *)

(** [disabled] of the generate button. *)
Definition generateDisabled (s : State) : bool :=
  isGenerating s || (Z.of_nat (length (basket s)) =? 0)%Z.

(** The "Clear All" button is rendered. *)
Definition clearAllShown (s : State) : bool :=
  (0 <? Z.of_nat (length (basket s)))%Z.

(** The error paragraph is rendered: [error && ..]. *)
Definition errorShown (s : State) : bool := Js.truthy (error s).

(** ** Running a pantry handler *)

Definition set_ingredients (l : list Ingredient) (s : State) : State :=
  {| ingredients := l; newItemName := newItemName s;
     searchTerm := searchTerm s; basket := basket s;
     recipeHistory := recipeHistory s; isGenerating := isGenerating s;
     error := error s |}.

Definition set_newItemName (n : string) (s : State) : State :=
  {| ingredients := ingredients s; newItemName := n;
     searchTerm := searchTerm s; basket := basket s;
     recipeHistory := recipeHistory s; isGenerating := isGenerating s;
     error := error s |}.

Definition set_searchTerm (t : string) (s : State) : State :=
  {| ingredients := ingredients s; newItemName := newItemName s;
     searchTerm := t; basket := basket s;
     recipeHistory := recipeHistory s; isGenerating := isGenerating s;
     error := error s |}.

Definition reply (w : World) (a : action) : answer a :=
  match a with
  | Basket b => Page.reply w b
  | _ => tt
  end.

Definition step (w : World) (a : action) (s : State) : State :=
  match a with
  | Basket b => Page.step w b s
  | SetIngredients u => set_ingredients (next u (ingredients s)) s
  | SetNewItemName u => set_newItemName (next u (newItemName s)) s
  | SetSearchTerm u => set_searchTerm (next u (searchTerm s)) s
  end.

Fixpoint exec {R} (w : World) (p : Prog action answer R) (s : State) : State :=
  match p with
  | Ret _ => s
  | Do a k => exec w (k (reply w a)) (step w a s)
  end.

(** The user presses the add button of the current render. *)
Definition addItem (w : World) (s : State) : State :=
  exec w (handleAddItem s) s.

Definition addItem_trace (w : World) (s : State) : list action :=
  actions_of (reply w) (handleAddItem s).

(** The user types a name into the input and presses the add button. *)
Definition typeAndAdd (w : World) (typed : string) (s : State) : State :=
  addItem w (exec w (changeNewItemName typed) s).

(** The user types a search term. *)
Definition search (w : World) (typed : string) (s : State) : State :=
  exec w (changeSearchTerm typed) s.

(** The user clears the basket. *)
Definition clear (w : World) (s : State) : State :=
  Page.exec w handleClearBasket s.

(** The user adds one item to the basket. *)
Definition add (w : World) (item : Ingredient) (s : State) : State :=
  Page.exec w (handleAddToBasket item) s.

(** An ingredient whose name is not empty and has no white space around it. *)
Definition well_named (i : Ingredient) : Prop :=
  name i <> "" /\ JsTrim.trim (name i) = name i.

End Pantry.

(** What a trace shows. *)
Module Observe.
Import Page.

(** The calls of the provider in a trace of the route. *)
Definition provider_calls (l : list Route.action) : list Route.GenerateContentRequest :=
  flat_map (fun a => match a with
                     | Route.GenerateContent req => [req]
                     | _ => []
                     end) l.

(** The messages written to the console in a trace of the route. *)
Definition logged (l : list Route.action) : list string :=
  flat_map (fun a => match a with
                     | Route.ConsoleError msg _ => [msg]
                     | _ => []
                     end) l.

(** The requests sent in a trace of the page. *)
Definition fetches (l : list Page.action) : list (string * RequestInit) :=
  flat_map (fun a => match a with
                     | Fetch url init => [(url, init)]
                     | _ => []
                     end) l.

(** The trace writes the basket or the history. *)
Definition writes_basket (a : Page.action) : bool :=
  match a with SetBasket _ => true | _ => false end.

Definition writes_history (a : Page.action) : bool :=
  match a with SetRecipeHistory _ => true | _ => false end.

(** [l] without its first entry with the given id. *)
Fixpoint remove_first (i : string) (l : list Ingredient) : list Ingredient :=
  match l with
  | [] => []
  | x :: r => if String.eqb (id x) i then r else x :: remove_first i r
  end.

(** The message that the [catch] clause shows for an error with message
    [m]: [error.message || ..]. *)
Definition shown (m : string) : string :=
  if JsString.truthy m then m
  else "An unexpected error occurred while generating the recipe.".

(** ** Example requests *)

(** A request whose body is not JSON. *)
Definition unreadable_request : Route.World :=
  {| Route.request_json := Abrupt (ThrownError "Unexpected end of JSON input");
     Route.generateContent := fun _ => Abrupt (ThrownError "fetch failed") |}.

(** A request with an empty list of ingredients. *)
Definition empty_list_request : Route.World :=
  {| Route.request_json := Normal (VObj [("ingredients", VArr [])]);
     Route.generateContent := fun _ => Abrupt (ThrownError "fetch failed") |}.

(** A request whose second ingredient is [null]. *)
Definition null_element_request : Route.World :=
  {| Route.request_json :=
       Normal (VObj [("ingredients", VArr [VObj [("name", VStr "Rice")]; VNull])]);
     Route.generateContent := fun _ => Abrupt (ThrownError "fetch failed") |}.

(** A provider whose response throws when its text is read. *)
Definition throwing_text (error : thrown)
  : Route.GenerateContentRequest -> Completion Route.GenerateContentResult :=
  fun _ => Normal {| Route.response := Some {| Route.text := Abrupt error; Route.candidates := None |} |}.

(** A provider that returns the given text. *)
Definition returning (t : string)
  : Route.GenerateContentRequest -> Completion Route.GenerateContentResult :=
  fun _ => Normal {| Route.response := Some {| Route.text := Normal t; Route.candidates := None |} |}.

(** ** Example pages *)

(** What a user types who pastes a no-break space (U+00A0) before the
    name and leaves spaces around it. *)
Definition nbsp_Basil : string :=
  String (ascii_of_nat 194) (String (ascii_of_nat 160) "  Basil ").

(** A page whose [fetch] is answered as given, with an idle user. *)
Definition answered (r : Completion Response) : World :=
  {| fetch := fun _ _ => r;
     Date_now := 1700000000000; new_Date := 1700000000001;
     meanwhile := fun _ st => st |}.

End Observe.

(* ===================================================================== *)
(** * Facts about strings and arrays *)
(* ===================================================================== *)

Module StringFacts.
Import JsString.

Lemma startsWith_iff (s t : string) :
  startsWith s t = true <-> exists r, s = t ++ r.
Proof.
  unfold startsWith. revert s.
  induction t as [| c t IH]; intros s; simpl.
  - split; [intros _; now exists s | intros _; now destruct s].
  - destruct s as [| d s]; simpl.
    + split; [discriminate | intros [r Hr]; discriminate].
    + destruct (ascii_dec c d) as [-> | Hcd].
      * rewrite IH. split; intros [r Hr]; exists r.
        -- now rewrite Hr.
        -- now injection Hr.
      * split; [discriminate |].
        intros [r Hr]. injection Hr as Hd _. congruence.
Qed.

Lemma includes_iff (s t : string) :
  includes s t = true <-> exists pre post, s = pre ++ t ++ post.
Proof.
  induction s as [| c s IH]; cbn [includes].
  - rewrite orb_false_r, startsWith_iff. split.
    + intros [r Hr]. now exists "", r.
    + intros (pre & post & H). destruct pre; simpl in H.
      * now exists post.
      * discriminate.
  - rewrite orb_true_iff, startsWith_iff, IH. split.
    + intros [[r Hr] | (pre & post & H)].
      * now exists "", r.
      * exists (String c pre), post. simpl. now rewrite H.
    + intros (pre & post & H). destruct pre as [| d pre]; simpl in H.
      * left. now exists post.
      * right. injection H as _ H. now exists pre, post.
Qed.

Lemma includes_empty (s : string) : includes s "" = true.
Proof. destruct s; reflexivity. Qed.

Lemma append_assoc (a b c : string) : (a ++ b) ++ c = a ++ b ++ c.
Proof. induction a as [| x a IH]; simpl; [reflexivity | now rewrite IH]. Qed.

Lemma append_empty_r (a : string) : a ++ "" = a.
Proof. induction a as [| x a IH]; simpl; [reflexivity | now rewrite IH]. Qed.

(** Every member of a joined list occurs in the joined text. *)
Lemma concat_member (sep n : string) (l : list string) :
  In n l -> exists pre post, String.concat sep l = pre ++ n ++ post.
Proof.
  induction l as [| x l IH]; [intros [] |].
  intros [-> | Hin].
  - destruct l as [| y l]; simpl.
    + exists "", "". now rewrite append_empty_r.
    + now exists "", (sep ++ String.concat sep (y :: l)).
  - destruct (IH Hin) as (pre & post & H).
    destruct l as [| y l]; [destruct Hin |].
    exists (x ++ sep ++ pre), post.
    change (String.concat sep (x :: y :: l))
      with (x ++ sep ++ String.concat sep (y :: l)).
    now rewrite H, !append_assoc.
Qed.

End StringFacts.

Module ArrayFacts.
Import Page.

Lemma findIndex_from_found {A} (p : A -> bool) (l1 l2 : list A) (x : A) (i : Z) :
  (forall y, In y l1 -> p y = false) -> p x = true ->
  findIndex_from p (l1 ++ x :: l2) i = (i + Z.of_nat (length l1))%Z.
Proof.
  revert i. induction l1 as [| y l1 IH]; intros i Hl1 Hx; simpl.
  - rewrite Hx. lia.
  - rewrite (Hl1 y (or_introl eq_refl)).
    rewrite IH; [lia | | assumption].
    intros z Hz. apply Hl1. now right.
Qed.

Lemma findIndex_from_absent {A} (p : A -> bool) (l : list A) (i : Z) :
  (forall y, In y l -> p y = false) -> findIndex_from p l i = (-1)%Z.
Proof.
  revert i. induction l as [| y l IH]; intros i Hl; simpl; [reflexivity |].
  rewrite (Hl y (or_introl eq_refl)). apply IH.
  intros z Hz. apply Hl. now right.
Qed.

(** The first element that satisfies [p] splits the list. *)
Lemma first_match {A} (p : A -> bool) (l : list A) :
  (exists x, In x l /\ p x = true) ->
  exists l1 x l2, l = (l1 ++ x :: l2)%list /\ p x = true /\
                  forall y, In y l1 -> p y = false.
Proof.
  induction l as [| a l IH]; intros (x & Hin & Hx); [destruct Hin |].
  destruct (p a) eqn:Ha.
  - exists [], a, l. repeat split; [assumption | intros y []].
  - destruct Hin as [-> | Hin]; [congruence |].
    destruct IH as (l1 & y & l2 & -> & Hy & Hl1); [now exists x |].
    exists (a :: l1), y, l2. repeat split; [assumption |].
    intros z [<- | Hz]; [assumption | now apply Hl1].
Qed.

Lemma slice_prefix {A} (l1 l2 : list A) :
  slice (l1 ++ l2) 0 (Z.of_nat (length l1)) = l1.
Proof.
  unfold slice, clamp. rewrite length_app.
  replace (0 <? 0)%Z with false by reflexivity.
  destruct (Z.ltb_spec (Z.of_nat (length l1)) 0); [lia |].
  rewrite Z.min_l by lia. rewrite Z.min_l by lia.
  rewrite Z.sub_0_r, Nat2Z.id. simpl.
  rewrite firstn_app, firstn_all, Nat.sub_diag. simpl. apply app_nil_r.
Qed.

Lemma slice_from_suffix {A} (l1 l2 : list A) (x : A) :
  slice_from (l1 ++ x :: l2) (Z.of_nat (length l1) + 1) = l2.
Proof.
  unfold slice_from, slice, clamp. rewrite length_app. simpl length.
  destruct (Z.ltb_spec (Z.of_nat (length l1) + 1) 0); [lia |].
  destruct (Z.ltb_spec (Z.of_nat (length l1 + S (length l2))) 0); [lia |].
  rewrite Z.min_id. rewrite Z.min_l by lia.
  replace (Z.to_nat (Z.of_nat (length l1) + 1)) with (length l1 + 1)%nat by lia.
  replace (Z.to_nat (Z.of_nat (length l1 + S (length l2))
                     - (Z.of_nat (length l1) + 1))) with (length l2) by lia.
  rewrite skipn_app.
  rewrite skipn_all2 by lia.
  replace (length l1 + 1 - length l1)%nat with 1%nat by lia.
  simpl. apply firstn_all.
Qed.

End ArrayFacts.

(* ===================================================================== *)
(** * The basket *)
(* ===================================================================== *)

Module BasketProperties.
Import Page ArrayFacts.

Lemma basket_add_all (w : World) (items : list Ingredient) (s : State) :
  basket (add_all w items s) = (basket s ++ items)%list.
Proof.
  unfold add_all. revert s.
  induction items as [| item items IH]; intros s; simpl.
  - now rewrite app_nil_r.
  - rewrite IH. simpl. now rewrite <- app_assoc.
Qed.

Lemma set_basket_same (s : State) : set_basket (basket s) s = s.
Proof. now destruct s. Qed.

Lemma id_absent (idToRemove : string) (l : list Ingredient) :
  ~ In idToRemove (map id l) ->
  forall y, In y l -> String.eqb (id y) idToRemove = false.
Proof.
  intros Habs y Hy. apply String.eqb_neq. intros E.
  apply Habs. rewrite <- E. now apply in_map.
Qed.

(** C8.  After N adds and no removal the count of a basket that was empty
    is N (adding appends, so the count grows by the number of items added);
    removing an id that is in the basket takes out the first entry with
    that id, and only that one, so the count drops by exactly one;
    removing an id that is not in the basket leaves the state as it is. *)
Theorem basket_add_remove_count
  (w : World) (s : State) (items : list Ingredient) (idToRemove : string) :
  (basket s = [] -> count (add_all w items s) = length items) /\
  count (add_all w items s) = (count s + length items)%nat /\
  (In idToRemove (map id (basket s)) ->
   exists l1 x l2,
     basket s = (l1 ++ x :: l2)%list /\
     id x = idToRemove /\
     (forall y, In y l1 -> id y <> idToRemove) /\
     basket (remove w idToRemove s) = (l1 ++ l2)%list /\
     S (count (remove w idToRemove s)) = count s) /\
  (~ In idToRemove (map id (basket s)) -> remove w idToRemove s = s).
Proof.
  unfold count. repeat split.
  - intros Hempty. now rewrite basket_add_all, Hempty.
  - now rewrite basket_add_all, length_app.
  - intros Hin. apply in_map_iff in Hin. destruct Hin as (x0 & Hid & Hx0).
    destruct (first_match (fun item => String.eqb (id item) idToRemove) (basket s))
      as (l1 & x & l2 & Hsplit & Hx & Hl1).
    { exists x0. split; [assumption | now apply String.eqb_eq]. }
    exists l1, x, l2.
    assert (Hrem : basket (remove w idToRemove s) = (l1 ++ l2)%list).
    { unfold remove. simpl. unfold findIndex. rewrite Hsplit.
      rewrite (findIndex_from_found _ l1 l2 x 0 Hl1 Hx). simpl.
      destruct (Z.eqb_spec (Z.of_nat (length l1)) (-1)); [lia |]. simpl.
      change (l1 ++ x :: l2)%list with (l1 ++ (x :: l2))%list at 1.
      now rewrite slice_prefix, slice_from_suffix. }
    repeat split.
    + assumption.
    + now apply String.eqb_eq.
    + intros y Hy. apply String.eqb_neq. now apply Hl1.
    + assumption.
    + rewrite Hrem, Hsplit, !length_app. simpl. lia.
  - intros Habs. unfold remove. simpl. unfold findIndex.
    rewrite (findIndex_from_absent _ _ 0 (id_absent _ _ Habs)). simpl.
    apply set_basket_same.
Qed.

Lemma basket_add_remove_count_witness :
  count (add_all offline (INITIAL_INGREDIENTS ++ firstn 2 INITIAL_INGREDIENTS) (initial 0))
  = 14%nat /\
  S (count (remove offline "2"
              (set_basket (firstn 3 INITIAL_INGREDIENTS ++ firstn 3 INITIAL_INGREDIENTS)
                          (initial 0)))) = 6%nat /\
  remove offline "99" (set_basket (firstn 3 INITIAL_INGREDIENTS) (initial 0))
  = set_basket (firstn 3 INITIAL_INGREDIENTS) (initial 0).
Proof.
  split; [| split].
  - exact (proj1 (basket_add_remove_count offline (initial 0)
                    (INITIAL_INGREDIENTS ++ firstn 2 INITIAL_INGREDIENTS) "2") eq_refl).
  - destruct (proj1 (proj2 (proj2
               (basket_add_remove_count offline
                  (set_basket (firstn 3 INITIAL_INGREDIENTS ++ firstn 3 INITIAL_INGREDIENTS)
                              (initial 0)) [] "2")))
               (or_intror (or_introl eq_refl)))
      as (l1 & x & l2 & _ & _ & _ & _ & H).
    exact H.
  - apply (proj2 (proj2 (proj2
             (basket_add_remove_count offline
                (set_basket (firstn 3 INITIAL_INGREDIENTS) (initial 0)) [] "99")))).
    simpl. intros H. repeat (destruct H as [H | H]; [discriminate |]). exact H.
Defined.

End BasketProperties.

(* ===================================================================== *)
(** * Search *)
(* ===================================================================== *)

Module SearchProperties.
Import Page JsString StringFacts.

Lemma filter_all {A} (p : A -> bool) (l : list A) :
  (forall x, In x l -> p x = true) -> filter p l = l.
Proof.
  induction l as [| x l IH]; intros H; simpl; [reflexivity |].
  rewrite (H x (or_introl eq_refl)). f_equal. apply IH.
  intros y Hy. apply H. now right.
Qed.

(** C9.  The filtered list is computed from the state and touches
    nothing: an ingredient of the catalog is listed exactly when the
    lower-cased search term occurs in its lower-cased name, where lower
    case is the engine's [toLowerCase].  The empty term lists the whole
    catalog, in its order, and the term [CHICK] lists every ingredient named
    [Chicken]. *)
Theorem search_case_insensitive_substring
  (toLowerCase : string -> string) (s : State) :
  lowers_ascii toLowerCase ->
  (forall i, In i (filteredIngredients toLowerCase s) <->
             In i (ingredients s) /\
             exists pre post,
               toLowerCase (name i) = pre ++ toLowerCase (searchTerm s) ++ post) /\
  (searchTerm s = "" -> filteredIngredients toLowerCase s = ingredients s) /\
  (forall i, searchTerm s = "CHICK" -> name i = "Chicken" ->
             In i (ingredients s) -> In i (filteredIngredients toLowerCase s)).
Proof.
  intros Hlower. unfold filteredIngredients. split; [| split].
  - intros i. rewrite filter_In, includes_iff. reflexivity.
  - intros ->. apply filter_all. intros x _.
    rewrite (Hlower "" eq_refl). apply includes_empty.
  - intros i Hterm Hname Hin. apply filter_In. split; [assumption |].
    rewrite Hterm, Hname.
    rewrite (Hlower "CHICK" eq_refl), (Hlower "Chicken" eq_refl). reflexivity.
Qed.

Lemma search_case_insensitive_substring_witness :
  filteredIngredients ascii_lower (initial 0) = INITIAL_INGREDIENTS /\
  In {| id := "1"; name := "Chicken" |}
     (filteredIngredients ascii_lower
        {| ingredients := INITIAL_INGREDIENTS; newItemName := ""; searchTerm := "CHICK";
           basket := []; recipeHistory := []; isGenerating := false; error := VNull |}).
Proof.
  split.
  - apply (search_case_insensitive_substring ascii_lower (initial 0)
             (fun s _ => eq_refl)).
    reflexivity.
  - apply (search_case_insensitive_substring ascii_lower
             {| ingredients := INITIAL_INGREDIENTS; newItemName := ""; searchTerm := "CHICK";
                basket := []; recipeHistory := []; isGenerating := false; error := VNull |}
             (fun s _ => eq_refl));
      [reflexivity | reflexivity | simpl; tauto].
Defined.

End SearchProperties.

(* ===================================================================== *)
(** * The endpoint: configuration, validation and the prompt *)
(* ===================================================================== *)

Module RouteProperties.
Import Route JsString StringFacts.

(** One step of simplification of a run of the handler; the prompt text
    is left folded. *)
Ltac run :=
  cbn [negb result_of actions_of try_catch bind bindE ret perform handle
       status body NextResponse_json prompts flat_map app] in *.

(** The next test or call of the handler, decided either way. *)
Ltac branch :=
  match goal with
  | |- context [bind (match ?x with _ => _ end) _] => destruct x eqn:?
  | |- context [bind (if ?x then _ else _) _] => destruct x eqn:?
  | |- context [result_of _ (match ?x with _ => _ end)] => destruct x eqn:?
  | |- context [actions_of _ (match ?x with _ => _ end)] => destruct x eqn:?
  | |- context [result_of _ (if ?x then _ else _)] => destruct x eqn:?
  | |- context [actions_of _ (if ?x then _ else _)] => destruct x eqn:?
  | H : context [bind (match ?x with _ => _ end) _] |- _ => destruct x eqn:?
  | H : context [bind (if ?x then _ else _) _] |- _ => destruct x eqn:?
  | H : context [actions_of _ (match ?x with _ => _ end)] |- _ => destruct x eqn:?
  | H : context [actions_of _ (if ?x then _ else _)] |- _ => destruct x eqn:?
  end; run.

Lemma destructure_array (v : value) (key : string) (l : list value) :
  Js.prop v key = VArr l -> Js.destructure v key = Normal (VArr l).
Proof.
  intros H. unfold Js.destructure.
  destruct v; try discriminate H. simpl. now rewrite <- H.
Qed.

Lemma map_names (elems : list value) :
  (forall e, In e elems -> Js.nullish e = false) ->
  Js.Array_map (fun ing => Js.get ing "name") elems
  = Normal (map (fun e => Js.prop e "name") elems).
Proof.
  induction elems as [| e elems IH]; intros H; simpl; [reflexivity |].
  unfold Js.get at 1. rewrite (H e (or_introl eq_refl)). simpl.
  rewrite IH; [reflexivity |]. intros x Hx. apply H. now right.
Qed.

Lemma texts_of_names (elems : list value) :
  (forall e, In e elems -> loosely_named e) ->
  Js.element_texts (map (fun e => Js.prop e "name") elems)
  = Normal (map name_text elems).
Proof.
  induction elems as [| e elems IH]; intros H; simpl; [reflexivity |].
  rewrite IH by (intros x Hx; apply H; now right). unfold name_text at 2.
  destruct (H e (or_introl eq_refl)) as [_ [-> | [n ->]]]; reflexivity.
Qed.

(** With a key, a body whose [ingredients] is a non-empty array of
    loosely named elements reaches the provider, once, with the prompt
    built from the names. *)
Lemma prompt_sent (key : string) (w : World) (body0 : value) (elems : list value) :
  JsString.truthy key = true ->
  request_json w = Normal body0 ->
  Js.prop body0 "ingredients" = VArr elems ->
  elems <> [] ->
  (forall e, In e elems -> loosely_named e) ->
  prompts (trace key w) = [prompt_of (String.concat ", " (map name_text elems))].
Proof.
  intros Hkey Hbody Hing Hne Hnamed.
  unfold trace, POST. rewrite Hkey. run. rewrite Hbody. run.
  rewrite (destructure_array _ _ _ Hing). run.
  destruct elems as [| e0 rest]; [congruence |].
  cbn [Js.truthy Js.Array_isArray Js.Array_length Js.elements length negb orb
       Z.of_nat Z.eqb]. run.
  rewrite map_names by (intros e He; now apply Hnamed). run.
  unfold Js.Array_join. rewrite (texts_of_names _ Hnamed).
  cbn [cbind]. run.
  repeat branch; reflexivity.
Qed.

(** C5.  Without a configured credential (the variable is unset or
    empty) the handler is the bare return of the 500 response with the
    error [API key not configured]: it performs no action, so the body is
    not read and no prompt is built, whatever the request is. *)
Theorem unconfigured_key_answers_500 (GEMINI_API_KEY : option string) (w : World) :
  GEMINI_API_KEY = None \/ GEMINI_API_KEY = Some "" ->
  POST (API_KEY GEMINI_API_KEY)
  = Ret {| status := 500; body := VObj [("error", VStr "API key not configured")] |} /\
  trace (API_KEY GEMINI_API_KEY) w = [] /\
  respond (API_KEY GEMINI_API_KEY) w
  = {| status := 500; body := VObj [("error", VStr "API key not configured")] |}.
Proof.
  intros [-> | ->]; repeat split.
Qed.

Lemma unconfigured_key_answers_500_witness :
  respond (API_KEY None)
    {| request_json := Normal (VObj [("ingredients", VArr [VObj [("name", VStr "Rice")]])]);
       generateContent := fun _ => Abrupt (ThrownError "unreachable") |}
  = {| status := 500; body := VObj [("error", VStr "API key not configured")] |}.
Proof.
  apply (unconfigured_key_answers_500 None). left. reflexivity.
Defined.



End RouteProperties.

Module PromptProperties.
Import Route JsString StringFacts RouteProperties.

Lemma named_texts (names : list string) (elems : list value) :
  Forall2 named names elems ->
  map name_text elems = names /\ forall e, In e elems -> loosely_named e.
Proof.
  induction 1 as [| n e names elems [Hnn Hname] _ [IHm IHl]]; simpl.
  - split; [reflexivity | intros e []].
  - split.
    + unfold name_text at 1. now rewrite Hname, IHm.
    + intros x [<- | Hx]; [| now apply IHl].
      split; [assumption | right; now exists n].
Qed.

(** C4, as stated, fails: the prompt for the single ingredient [salt]
    contains that name twice, and names [pepper], which was not given. *)
Lemma prompt_names_salt_twice :
  prompts (trace "key" salt_request) = [prompt_of "salt"] /\
  In "salt" ["salt"] /\
  occurrences (prompt_of "salt") "salt" = 2%nat /\
  includes (prompt_of "salt") "pepper" = true /\
  ~ In "pepper" ["salt"].
Proof.
  repeat split; try reflexivity.
  - now left.
  - intros [H | []]. discriminate H.
Qed.

(** C4, amended.  For every non-empty sequence of names, the prompt sent
    to the provider is the fixed template with the names, joined by a
    comma and a space in their order, inserted at its one place; so every
    given name occurs in the prompt, and nothing else of the prompt depends
    on the input.  The template itself names salt, pepper, oil and water. *)
Theorem prompt_is_template_with_names
  (key : string) (w : World) (body0 : value) (names : list string) (elems : list value) :
  JsString.truthy key = true ->
  request_json w = Normal body0 ->
  Js.prop body0 "ingredients" = VArr elems ->
  names <> [] ->
  Forall2 named names elems ->
  prompts (trace key w) = [PROMPT_HEAD ++ String.concat ", " names ++ PROMPT_TAIL] /\
  (forall n p, In n names -> In p (prompts (trace key w)) -> includes p n = true) /\
  includes PROMPT_TAIL "salt, pepper, oil, water" = true.
Proof.
  intros Hkey Hbody Hing Hne Hnamed.
  destruct (named_texts names elems Hnamed) as [Htexts Hloose].
  assert (Hsent : prompts (trace key w)
                  = [PROMPT_HEAD ++ String.concat ", " names ++ PROMPT_TAIL]).
  { rewrite <- Htexts. apply (prompt_sent key w body0 elems); try assumption.
    intros ->. inversion Hnamed. congruence. }
  split; [assumption | split; [| reflexivity]].
  intros n p Hn Hp. rewrite Hsent in Hp. destruct Hp as [<- | []].
  apply includes_iff.
  destruct (concat_member ", " n names Hn) as (pre & post & ->).
  exists (PROMPT_HEAD ++ pre), (post ++ PROMPT_TAIL).
  now rewrite !append_assoc.
Qed.

Lemma prompt_is_template_with_names_witness :
  prompts (trace "key" (chicken_rice_request (fun _ => Abrupt (ThrownError "fetch failed"))))
  = [PROMPT_HEAD ++ "Chicken, Rice" ++ PROMPT_TAIL].
Proof.
  apply (prompt_is_template_with_names "key"
           (chicken_rice_request (fun _ => Abrupt (ThrownError "fetch failed")))
           (VObj [("ingredients",
                   VArr [VObj [("id", VStr "1"); ("name", VStr "Chicken")];
                         VObj [("id", VStr "2"); ("name", VStr "Rice")]])])
           ["Chicken"; "Rice"]
           [VObj [("id", VStr "1"); ("name", VStr "Chicken")];
            VObj [("id", VStr "2"); ("name", VStr "Rice")]]).
  - reflexivity.
  - reflexivity.
  - reflexivity.
  - discriminate.
  - repeat constructor.
Defined.

End PromptProperties.

(* ===================================================================== *)
(** * The endpoint: interpreting the provider's answer *)
(* ===================================================================== *)

Module InterpreterProperties.
Import Route JsString StringFacts RouteProperties.

(** The handler calls the provider at most once: a call found in the
    trace is the call whose answer the handler went on with. *)
Ltac the_call Hin Hcall :=
  cbn [In] in Hin;
  repeat match type of Hin with
         | _ \/ _ => destruct Hin as [Hin | Hin]
         end;
  try discriminate Hin; try contradiction;
  injection Hin as <-;
  match goal with
  | H : generateContent _ _ = _ |- _ =>
      rewrite H in Hcall; first [discriminate Hcall | injection Hcall as <-]
  end.

(** C3.  Once the provider has answered, the handler decides in this
    order.  Without a response object the answer is the 500 response that
    says no response object came.  With a response object whose text is
    empty, the message is chosen by the finish reason alone: [SAFETY] gives
    the safety message (the blocked outcome); another finish reason that is
    present, that is, passes the handler's test [finishReason ? ..] (it is
    not the empty string), gives the message carrying that reason; no
    finish reason gives the generic message.  The safety ratings, when there are any, add their diagnostic
    after the message chosen and change nothing else. *)
Theorem interpreter_decision_order
  (key : string) (w : World) (req : GenerateContentRequest) (result : GenerateContentResult) :
  In (GenerateContent req) (trace key w) ->
  generateContent w req = Normal result ->
  match response result with
  | None =>
      respond key w
      = {| status := 500;
           body := error_body "Failed to generate recipe. No response object from AI." |}
  | Some r =>
      text r = Normal "" ->
      exists message,
        respond key w
        = {| status := 500;
             body := error_body (message ++ safetyInfo_of (safetyRatings_of r)) |} /\
        (finishReason_of r = Some "SAFETY" ->
         message = "Failed to generate recipe due to safety settings.") /\
        (forall reason,
            finishReason_of r = Some reason -> reason <> "SAFETY" -> reason <> "" ->
            message = "Failed to generate recipe.  (Finish Reason: " ++ reason ++ ")") /\
        (finishReason_of r = None \/ finishReason_of r = Some "" ->
         message = "Failed to generate recipe. The AI response was empty or blocked.")
  end.
Proof.
  unfold trace, respond, POST. intros Hin Hcall.
  destruct (JsString.truthy key); run; [| destruct Hin].
  repeat (branch; try (cbn [In] in Hin; intuition discriminate)); the_call Hin Hcall.
  all: match goal with H : response _ = _ |- _ => rewrite H end; try reflexivity.
  all: match goal with H : text _ = _ |- _ => rewrite H end;
    intros Htext; try discriminate Htext; injection Htext as ->;
    try discriminate.
  eexists. split; [reflexivity |].
  fold (finishReason_of e).
  repeat split.
  - intros ->. reflexivity.
  - intros reason -> Hsafety Hempty. unfold is_SAFETY, present.
    apply String.eqb_neq in Hsafety. rewrite Hsafety.
    destruct reason; [congruence | reflexivity].
  - intros [-> | ->]; reflexivity.
Qed.

Lemma interpreter_decision_order_witness :
  exists message,
    respond "key"
      (chicken_rice_request
         (empty_answer (Some "SAFETY")
            (Some [ {| category := "HARM_CATEGORY_DANGEROUS_CONTENT";
                       probability := "HIGH" |} ])))
    = {| status := 500;
         body := error_body
                   (message ++
                    safetyInfo_of
                      (Some [ {| category := "HARM_CATEGORY_DANGEROUS_CONTENT";
                                 probability := "HIGH" |} ])) |} /\
    (Some "SAFETY" = Some "SAFETY" ->
     message = "Failed to generate recipe due to safety settings.").
Proof.
  destruct (interpreter_decision_order "key"
              (chicken_rice_request
                 (empty_answer (Some "SAFETY")
                    (Some [ {| category := "HARM_CATEGORY_DANGEROUS_CONTENT";
                               probability := "HIGH" |} ])))
              (request_with (prompt_of "Chicken, Rice"))
              {| response :=
                   Some {| text := Normal "";
                           candidates :=
                             Some [ {| finishReason := Some "SAFETY";
                                       safetyRatings :=
                                         Some [ {| category := "HARM_CATEGORY_DANGEROUS_CONTENT";
                                                   probability := "HIGH" |} ] |} ] |} |}
              (or_intror (or_introl eq_refl)) eq_refl eq_refl)
    as (message & Hresp & Hsafety & _).
  exists message. split; [exact Hresp | exact Hsafety].
Defined.

Lemma is_SAFETY_true (reason : option string) :
  is_SAFETY reason = true -> reason = Some "SAFETY".
Proof.
  destruct reason as [r |]; simpl; [| discriminate].
  intros H. apply String.eqb_eq in H. now subst.
Qed.

(** The answers of the handler: a recipe text that is not empty with
    status 200, or an error that is not empty with status 400 or 500. *)
Lemma respond_shape (key : string) (w : World) :
  (status (respond key w) = 200%Z /\
   exists t, t <> "" /\ body (respond key w) = VObj [("recipeText", VStr t)]) \/
  ((status (respond key w) = 400%Z \/ status (respond key w) = 500%Z) /\
   exists e, e <> "" /\ body (respond key w) = error_body e).
Proof.
  unfold respond, POST.
  destruct (JsString.truthy key); run.
  2:{ right. split; [now right |]. eexists. split; [| reflexivity]. discriminate. }
  repeat branch.
  all: try (right; split; [first [now left | now right] |];
            eexists; split; [| reflexivity];
            try discriminate).
  - destruct (is_SAFETY _); [| destruct (present _)]; discriminate.
  - left. split; [reflexivity |]. eexists. split; [| reflexivity].
    intros ->. discriminate.
Qed.

(** C7, as stated, fails: the 500 response for a missing credential
    carries the error [API key not configured], which does not start with
    [Failed to generate recipe. ]. *)
Lemma configuration_error_not_prefixed :
  status (respond "" any_request) = 500%Z /\
  body (respond "" any_request) = error_body "API key not configured" /\
  startsWith "API key not configured" "Failed to generate recipe. " = false.
Proof. repeat split. Qed.

(** C7, amended.  A 500 response carries an error string of one of three
    forms.  When no credential is configured it is exactly
    [API key not configured].  When the provider's answer to the request
    has no text and the finish reason [SAFETY], it is the safety message,
    followed by the ratings diagnostic if any.  In every other case (no
    response object, an empty text with another finish reason or none, a
    failure of the call or of anything else in the handler) it is
    [Failed to generate recipe. ] followed by the detail; without a
    response object the detail is [No response object from AI.].  When the
    call of the provider throws, the detail is the message of the thrown
    error or the thrown string, and [Unknown error] for any other thrown
    value; for an error with the message [fetch failed] the error is
    [Failed to generate recipe. fetch failed]. *)
Theorem failure_responses_carry_detail (key : string) (w : World) :
  (JsString.truthy key = false ->
   respond key w = {| status := 500; body := error_body "API key not configured" |}) /\
  (forall req result r,
      In (GenerateContent req) (trace key w) ->
      generateContent w req = Normal result ->
      response result = Some r ->
      text r = Normal "" ->
      finishReason_of r = Some "SAFETY" ->
      respond key w
      = {| status := 500;
           body := error_body ("Failed to generate recipe due to safety settings."
                               ++ safetyInfo_of (safetyRatings_of r)) |}) /\
  (status (respond key w) = 500%Z ->
   JsString.truthy key = true ->
   (forall req result r,
       In (GenerateContent req) (trace key w) ->
       generateContent w req = Normal result ->
       response result = Some r ->
       text r = Normal "" ->
       finishReason_of r <> Some "SAFETY") ->
   exists detail,
     body (respond key w) = error_body ("Failed to generate recipe. " ++ detail)) /\
  (forall req result,
      In (GenerateContent req) (trace key w) ->
      generateContent w req = Normal result ->
      response result = None ->
      respond key w
      = {| status := 500;
           body := error_body "Failed to generate recipe. No response object from AI." |}) /\
  (forall req error,
      In (GenerateContent req) (trace key w) ->
      generateContent w req = Abrupt error ->
      respond key w
      = {| status := 500;
           body := error_body ("Failed to generate recipe. " ++ detail_of error) |}) /\
  detail_of (ThrownError "fetch failed") = "fetch failed" /\
  (forall v, (forall s, v <> VStr s) -> detail_of (ThrownValue v) = "Unknown error").
Proof.
  split; [| split; [| split; [| split; [| split; [| split]]]]].
  - intros Hkey. unfold respond, POST. now rewrite Hkey.
  - unfold trace, respond, POST. intros req result r Hin Hcall Hresp Htext Hsafety.
    destruct (JsString.truthy key); run; [| destruct Hin].
    repeat (branch; try (cbn [In] in Hin; intuition discriminate)); the_call Hin Hcall.
    all: revert Hresp; match goal with H : response _ = _ |- _ => rewrite H end;
      intros Hresp; try discriminate Hresp; injection Hresp as ->.
    all: revert Htext; match goal with H : text _ = _ |- _ => rewrite H end;
      intros Htext; try discriminate Htext; injection Htext as ->;
      try discriminate.
    fold (finishReason_of r) (safetyRatings_of r). rewrite Hsafety. reflexivity.
  - unfold trace, respond, POST. intros Hstatus Hkey Hother. rewrite Hkey in *. run.
    repeat branch; try discriminate Hstatus.
    all: try (eexists; reflexivity).
    fold (finishReason_of e) (safetyRatings_of e)
         (safetyInfo_of (safetyRatings_of e)).
    destruct (is_SAFETY (finishReason_of e)) eqn:Hsafety.
    + apply is_SAFETY_true in Hsafety. exfalso.
      match goal with
      | Hc : generateContent w ?q = Normal ?res, Hr : response ?res = Some e,
        Ht : text e = Normal ?t, Hn : negb (JsString.truthy ?t) = true |- _ =>
          refine (Hother q res e _ Hc Hr _ Hsafety);
            [ cbn [In]; right; left; reflexivity
            | rewrite Ht; destruct t; [reflexivity | discriminate Hn] ]
      end.
    + destruct (present (finishReason_of e)); eexists; reflexivity.
  - unfold trace, respond, POST. intros req result Hin Hcall Hresp.
    destruct (JsString.truthy key); run; [| destruct Hin].
    repeat (branch; try (cbn [In] in Hin; intuition discriminate)); the_call Hin Hcall.
    all: revert Hresp; match goal with H : response _ = _ |- _ => rewrite H end;
      intros Hresp; try discriminate Hresp.
    all: reflexivity.
  - unfold trace, respond, POST. intros req error Hin Hcall.
    destruct (JsString.truthy key); run; [| destruct Hin].
    repeat (branch; try (cbn [In] in Hin; intuition discriminate)); the_call Hin Hcall.
    reflexivity.
  - reflexivity.
  - intros v Hv. destruct v; try reflexivity. now destruct (Hv s).
Qed.

Lemma failure_responses_carry_detail_witness :
  respond "key" any_request
  = {| status := 500; body := error_body "Failed to generate recipe. fetch failed" |} /\
  respond "" any_request
  = {| status := 500; body := error_body "API key not configured" |} /\
  respond "key"
    (chicken_rice_request (empty_answer (Some "SAFETY") None))
  = {| status := 500;
       body := error_body "Failed to generate recipe due to safety settings." |}.
Proof.
  split; [| split].
  - apply (proj1 (proj2 (proj2 (proj2 (proj2
             (failure_responses_carry_detail "key" any_request)))))
             (request_with (prompt_of "Rice")) (ThrownError "fetch failed")).
    + right. left. reflexivity.
    + reflexivity.
  - apply (proj1 (failure_responses_carry_detail "" any_request)). reflexivity.
  - apply (proj1 (proj2 (failure_responses_carry_detail "key"
                           (chicken_rice_request (empty_answer (Some "SAFETY") None))))
             (request_with (prompt_of "Chicken, Rice"))
             {| response :=
                  Some {| text := Normal "";
                          candidates := Some [ {| finishReason := Some "SAFETY";
                                                  safetyRatings := None |} ] |} |}
             {| text := Normal "";
                candidates := Some [ {| finishReason := Some "SAFETY";
                                        safetyRatings := None |} ] |}).
    + right. left. reflexivity.
    + reflexivity.
    + reflexivity.
    + reflexivity.
    + reflexivity.
Defined.

End InterpreterProperties.

(* ===================================================================== *)
(** * The page: generating a recipe *)
(* ===================================================================== *)

Module GenerationProperties.
Import Page.

Ltac run :=
  cbn [negb exec actions_of try_catchE try_finally bind bindE ret perform reply step
       next] in *.

Lemma nonempty_length {A} (l : list A) :
  l <> [] -> (Z.of_nat (length l) =? 0)%Z = false.
Proof. destruct l; [congruence | reflexivity]. Qed.

(** A response that is [ok] and carries a JSON document other than
    [null]: the recipe is recorded and the basket emptied. *)
Lemma generate_fulfilled (w : World) (s : State) (r : Response) (data : value) :
  basket s <> [] ->
  fetch w endpoint (request_for s) = Normal r ->
  json r = Normal data ->
  ok r = true ->
  Js.nullish data = false ->
  generate w s
  = set_isGenerating false
      (set_basket []
         (set_recipeHistory
            ({| recipe_id := "recipe_" ++ JsString.of_Z (Date_now w);
                ingredientsUsed := basket s;
                recipeText := Js.prop data "recipeText";
                generatedAt := new_Date w |} :: recipeHistory (resumed w s r))
            (resumed w s r))).
Proof.
  intros Hne Hfetch Hjson Hok Hdata.
  unfold generate, handleGenerateRecipe.
  rewrite (nonempty_length _ Hne). run.
  change (fetch w "/api/generate-recipe" _) with (fetch w endpoint (request_for s)).
  rewrite Hfetch. run. rewrite Hjson. run. rewrite Hok. run.
  unfold Js.get. rewrite Hdata. run.
  reflexivity.
Qed.

(** A response that is not [ok] and carries an error text: the text is
    shown, and nothing else is touched. *)
Lemma generate_refused (w : World) (s : State) (r : Response) (data : value) (msg : string) :
  basket s <> [] ->
  fetch w endpoint (request_for s) = Normal r ->
  json r = Normal data ->
  ok r = false ->
  Js.prop data "error" = VStr msg ->
  msg <> "" ->
  generate w s = set_isGenerating false (set_error (VStr msg) (resumed w s r)).
Proof.
  intros Hne Hfetch Hjson Hok Herror Hmsg.
  unfold generate, handleGenerateRecipe.
  rewrite (nonempty_length _ Hne). run.
  change (fetch w "/api/generate-recipe" _) with (fetch w endpoint (request_for s)).
  rewrite Hfetch. run. rewrite Hjson. run. rewrite Hok. run.
  assert (Hdata : Js.nullish data = false) by (destruct data; try reflexivity; discriminate).
  unfold Js.get. rewrite Hdata, Herror. run. 
  destruct msg as [| c msg]; [congruence |].
  reflexivity.
Qed.

Lemma ok_200 (r : Route.HttpResponse) :
  Route.status r = 200%Z -> ok (response_of r) = true.
Proof. unfold ok, response_of. simpl. now intros ->. Qed.

Lemma not_ok_400_500 (r : Route.HttpResponse) :
  Route.status r = 400%Z \/ Route.status r = 500%Z -> ok (response_of r) = false.
Proof. unfold ok, response_of. simpl. now intros [-> | ->]. Qed.

(** C6.  With an empty basket the handler only sets the error message and
    returns: no request is sent, the generating flag is never set, and the
    state is the previous one with the message. *)
Theorem empty_basket_is_rejected (w : World) (s : State) :
  basket s = [] ->
  handleGenerateRecipe s
  = Do (SetError (To (VStr "Your basket is empty. Add some ingredients first!")))
       (fun _ => Ret (Normal tt)) /\
  generate_trace w s
  = [SetError (To (VStr "Your basket is empty. Add some ingredients first!"))] /\
  (forall url init, ~ In (Fetch url init) (generate_trace w s)) /\
  (forall u, ~ In (SetIsGenerating u) (generate_trace w s)) /\
  generate w s = set_error (VStr "Your basket is empty. Add some ingredients first!") s.
Proof.
  intros Hempty.
  unfold generate_trace, generate, handleGenerateRecipe. rewrite Hempty.
  repeat split; intros; simpl; intros [H | []]; discriminate H.
Qed.

Lemma empty_basket_is_rejected_witness :
  generate offline (initial 0)
  = set_error (VStr "Your basket is empty. Add some ingredients first!") (initial 0).
Proof.
  apply (empty_basket_is_rejected offline (initial 0)). reflexivity.
Defined.

(** What the page receives when its request is served by the route. *)
Lemma fetch_served (key : string)
  (provider : Route.GenerateContentRequest -> Completion Route.GenerateContentResult)
  (w : World) (s : State) :
  (forall url init, fetch w url init = served key provider url init) ->
  fetch w endpoint (request_for s)
  = Normal (response_of (Route.respond key (request_world provider s))).
Proof. intros Hfetch. now rewrite Hfetch. Qed.

Lemma idle_resumed (w : World) (s : State) (r : Response) :
  idle w -> resumed w s r = suspended s.
Proof. intros Hidle. unfold resumed. now rewrite !Hidle. Qed.

(** C1.  When the route answers the request of the page with the success
    response (status 200, a recipe text), the handler puts a new recipe in
    front of the history as it is when the handler resumes; the recipe
    holds the basket of the render that started the generation and the text
    received; the basket is empty afterwards and no error is set.  If
    nothing else happened meanwhile, the history is the one before the call
    with the new recipe in front. *)
Theorem success_prepends_recipe
  (key : string)
  (provider : Route.GenerateContentRequest -> Completion Route.GenerateContentResult)
  (w : World) (s : State) :
  (forall url init, fetch w url init = served key provider url init) ->
  basket s <> [] ->
  Route.status (Route.respond key (request_world provider s)) = 200%Z ->
  exists recipe text,
    Route.body (Route.respond key (request_world provider s))
    = VObj [("recipeText", VStr text)] /\
    recipeText recipe = VStr text /\
    ingredientsUsed recipe = basket s /\
    recipeHistory (generate w s)
    = recipe :: recipeHistory
                  (resumed w s (response_of (Route.respond key (request_world provider s)))) /\
    basket (generate w s) = [] /\
    isGenerating (generate w s) = false /\
    (idle w ->
     recipeHistory (generate w s) = recipe :: recipeHistory s /\
     error (generate w s) = VNull).
Proof.
  intros Hfetch Hne Hstatus.
  set (r := Route.respond key (request_world provider s)) in *.
  destruct (InterpreterProperties.respond_shape key (request_world provider s))
    as [[_ (text & Htext & Hbody)] | [[H | H] _]];
    fold r in Hbody || fold r in H; try congruence.
  assert (Hgen := generate_fulfilled w s (response_of r) (Route.body r) Hne
                    (fetch_served key provider w s Hfetch) eq_refl
                    (ok_200 r Hstatus)).
  rewrite Hbody in Hgen. specialize (Hgen eq_refl).
  exists {| recipe_id := "recipe_" ++ JsString.of_Z (Date_now w);
            ingredientsUsed := basket s;
            recipeText := VStr text;
            generatedAt := new_Date w |}, text.
  rewrite Hgen.
  split; [exact Hbody |].
  split; [reflexivity |].
  split; [reflexivity |].
  split; [reflexivity |].
  split; [reflexivity |].
  split; [reflexivity |].
  intros Hidle. rewrite (idle_resumed w s _ Hidle). split; reflexivity.
Qed.

Lemma success_prepends_recipe_witness :
  exists recipe text,
    Route.body (Route.respond "key"
                  (request_world (answering (Normal "**Chicken & Rice**...") (Some "STOP"))
                                 chicken_rice))
    = VObj [("recipeText", VStr text)] /\
    recipeText recipe = VStr text /\
    ingredientsUsed recipe = [ {| id := "1"; name := "Chicken" |};
                               {| id := "2"; name := "Rice" |} ] /\
    recipeHistory (generate (waiting (answering (Normal "**Chicken & Rice**...") (Some "STOP")))
                            chicken_rice)
    = recipe :: INITIAL_RECIPE_HISTORY 0 /\
    basket (generate (waiting (answering (Normal "**Chicken & Rice**...") (Some "STOP")))
                     chicken_rice) = [].
Proof.
  destruct (success_prepends_recipe "key"
              (answering (Normal "**Chicken & Rice**...") (Some "STOP"))
              (waiting (answering (Normal "**Chicken & Rice**...") (Some "STOP")))
              chicken_rice)
    as (recipe & text & Hbody & Htext & Hused & Hhistory & Hbasket & _).
  - intros url init. reflexivity.
  - discriminate.
  - reflexivity.
  - exists recipe, text. repeat split; assumption.
Defined.

(** C2.  When the route answers with anything but the success response
    (the configuration error, a blocked or empty answer of the provider, a
    failure of the call), the handler shows the error text of the response
    and leaves the basket and the history as they are when it resumes: it
    sets neither.  If nothing else happened meanwhile, both are exactly as
    before the call. *)
Theorem failure_preserves_basket
  (key : string)
  (provider : Route.GenerateContentRequest -> Completion Route.GenerateContentResult)
  (w : World) (s : State) :
  (forall url init, fetch w url init = served key provider url init) ->
  basket s <> [] ->
  Route.status (Route.respond key (request_world provider s)) <> 200%Z ->
  exists msg,
    Route.body (Route.respond key (request_world provider s)) = Route.error_body msg /\
    msg <> "" /\
    error (generate w s) = VStr msg /\
    basket (generate w s)
    = basket (resumed w s (response_of (Route.respond key (request_world provider s)))) /\
    recipeHistory (generate w s)
    = recipeHistory
        (resumed w s (response_of (Route.respond key (request_world provider s)))) /\
    isGenerating (generate w s) = false /\
    (idle w ->
     basket (generate w s) = basket s /\
     recipeHistory (generate w s) = recipeHistory s).
Proof.
  intros Hfetch Hne Hstatus.
  set (r := Route.respond key (request_world provider s)) in *.
  destruct (InterpreterProperties.respond_shape key (request_world provider s))
    as [[H _] | [H (msg & Hmsg & Hbody)]];
    fold r in H; try fold r in Hbody; [congruence |].
  assert (Hgen := generate_refused w s (response_of r) (Route.body r) msg Hne
                    (fetch_served key provider w s Hfetch) eq_refl
                    (not_ok_400_500 r H)).
  rewrite Hbody in Hgen. specialize (Hgen eq_refl Hmsg).
  exists msg. rewrite Hgen.
  split; [exact Hbody |].
  split; [exact Hmsg |].
  split; [reflexivity |].
  split; [reflexivity |].
  split; [reflexivity |].
  split; [reflexivity |].
  intros Hidle. rewrite (idle_resumed w s _ Hidle). split; reflexivity.
Qed.

Lemma failure_preserves_basket_witness :
  exists msg,
    Route.body (Route.respond "key"
                  (request_world (answering (Normal "") (Some "SAFETY")) chicken_rice))
    = Route.error_body msg /\
    error (generate (waiting (answering (Normal "") (Some "SAFETY"))) chicken_rice)
    = VStr msg /\
    basket (generate (waiting (answering (Normal "") (Some "SAFETY"))) chicken_rice)
    = [ {| id := "1"; name := "Chicken" |}; {| id := "2"; name := "Rice" |} ] /\
    recipeHistory (generate (waiting (answering (Normal "") (Some "SAFETY"))) chicken_rice)
    = INITIAL_RECIPE_HISTORY 0.
Proof.
  destruct (failure_preserves_basket "key"
              (answering (Normal "") (Some "SAFETY"))
              (waiting (answering (Normal "") (Some "SAFETY")))
              chicken_rice)
    as (msg & Hbody & _ & Herror & Hbasket & Hhistory & _).
  - intros url init. reflexivity.
  - discriminate.
  - discriminate.
  - exists msg. repeat split; assumption.
Defined.

End GenerationProperties.

(* ===================================================================== *)
(** * Further properties of the endpoint and of the page *)
(* ===================================================================== *)

Module RouteExtras.
Import Route JsString RouteProperties InterpreterProperties Observe.

Lemma accepted_iff (v : value) :
  negb (Js.truthy v) || negb (Js.Array_isArray v) || (Js.Array_length v =? 0)%Z = false
  <-> exists x xs, v = VArr (x :: xs).
Proof.
  split.
  - destruct v as [| | b | n | s | l | props]; simpl;
      rewrite ?orb_true_r; try discriminate.
    destruct l as [| x xs]; [discriminate | intros _; now exists x, xs].
  - intros (x & xs & ->). reflexivity.
Qed.

Lemma destructure_normal (v : value) (key : string) :
  Js.nullish v = false -> Js.destructure v key = Normal (Js.prop v key).
Proof. intros H. unfold Js.destructure. now rewrite H. Qed.

Lemma destructure_abrupt (v : value) (key : string) :
  Js.nullish v = true ->
  Js.destructure v key = Abrupt (ThrownError (Js.destructure_of_nullish v key)).
Proof. intros H. unfold Js.destructure. now rewrite H. Qed.

(** With a key, the status is 400 exactly for a readable body that is not [null]
   and whose [ingredients] is not a non-empty array. *)
Lemma status_400_iff (key : string) (w : World) :
  JsString.truthy key = true ->
  (status (respond key w) = 400%Z <->
   exists body0, request_json w = Normal body0 /\ Js.nullish body0 = false /\
                 forall x xs, Js.prop body0 "ingredients" <> VArr (x :: xs)).
Proof.
  intros Hkey. unfold respond, POST. rewrite Hkey. run.
  destruct (request_json w) as [body0 | t] eqn:Hbody; run.
  2:{ split; [discriminate | intros (b & H & _); discriminate]. }
  destruct (Js.nullish body0) eqn:Hnull.
  { rewrite (destructure_abrupt _ _ Hnull). run.
    split; [discriminate | intros (b & H & Hn & _); congruence]. }
  rewrite (destructure_normal _ _ Hnull). run.
  destruct (negb (Js.truthy (Js.prop body0 "ingredients")) || _ || _) eqn:Hacc; run.
  - split; [intros _ | reflexivity].
    exists body0. repeat split; try assumption.
    intros x xs E. 
    assert (Hno : negb (Js.truthy (Js.prop body0 "ingredients"))
                  || negb (Js.Array_isArray (Js.prop body0 "ingredients"))
                  || (Js.Array_length (Js.prop body0 "ingredients") =? 0)%Z = false)
      by (apply accepted_iff; eauto).
    congruence.
  - apply accepted_iff in Hacc. destruct Hacc as (x & xs & Hacc).
    split.
    + repeat branch; discriminate.
    + intros (b & Hb & _ & Hno). injection Hb as <-. now destruct (Hno x xs).
Qed.


Ltac leaves := repeat branch.

(** Two readings of the same field agree. *)
Ltac agree Hyp :=
  match goal with
  | H : ?l = _ |- _ =>
      match type of Hyp with
      | l = _ => tryif constr_eq H Hyp then fail else rewrite H in Hyp
      end
  end;
  try discriminate Hyp; injection Hyp as ->.

(** X1.  With a key, the handler answers 400 exactly when the body can be
    read, is not [null], and its [ingredients] is not a non-empty array
    (it is missing, is not an array, or is empty).  The answer is then the
    error [Missing or invalid ingredients list], and reading the body is
    all the handler did: nothing is logged and the provider is not called. *)
Theorem invalid_ingredients_answer_400 (key : string) (w : World) :
  JsString.truthy key = true ->
  (status (respond key w) = 400%Z <->
   exists body0, request_json w = Normal body0 /\ Js.nullish body0 = false /\
                 forall x xs, Js.prop body0 "ingredients" <> VArr (x :: xs)) /\
  (status (respond key w) = 400%Z ->
   respond key w
   = {| status := 400; body := error_body "Missing or invalid ingredients list" |} /\
   trace key w = [RequestJson]).
Proof.
  intros Hkey. split; [now apply status_400_iff |].
  unfold respond, trace, POST. rewrite Hkey. run.
  leaves; intros H; try discriminate H. split; reflexivity.
Qed.

Lemma invalid_ingredients_answer_400_witness :
  respond "key" empty_list_request
  = {| status := 400; body := error_body "Missing or invalid ingredients list" |} /\
  trace "key" empty_list_request = [RequestJson].
Proof.
  apply (proj2 (invalid_ingredients_answer_400 "key" empty_list_request eq_refl)).
  reflexivity.
Defined.

(** X2.  With a key, a body that cannot be read (the call of
    [request.json()] throws) is answered with status 500 and the detail of
    the thrown value after [Failed to generate recipe. ]; the failure is
    logged and nothing else happens.  A body that is [null] is answered
    with status 500 and the text of the destructuring error, and the
    provider is not called. *)
Theorem unreadable_body_answers_500 (key : string) (w : World) :
  JsString.truthy key = true ->
  (forall error,
      request_json w = Abrupt error ->
      respond key w
      = {| status := 500;
           body := error_body ("Failed to generate recipe. " ++ detail_of error) |} /\
      trace key w = [RequestJson; ConsoleError "Error calling Gemini API:" (Some error)]) /\
  (forall body0,
      request_json w = Normal body0 -> Js.nullish body0 = true ->
      respond key w
      = {| status := 500;
           body := error_body ("Failed to generate recipe. "
                               ++ Js.destructure_of_nullish body0 "ingredients") |} /\
      provider_calls (trace key w) = []).
Proof.
  intros Hkey. split.
  - intros error Hbody. unfold respond, trace, POST. rewrite Hkey. run.
    rewrite Hbody. run. split; reflexivity.
  - intros body0 Hbody Hnull. unfold respond, trace, POST. rewrite Hkey. run.
    rewrite Hbody. run. rewrite (destructure_abrupt _ _ Hnull). run.
    split; reflexivity.
Qed.

Lemma unreadable_body_answers_500_witness :
  respond "key" unreadable_request
  = {| status := 500;
       body := error_body "Failed to generate recipe. Unexpected end of JSON input" |}.
Proof.
  apply (proj1 (unreadable_body_answers_500 "key" unreadable_request eq_refl)
           (ThrownError "Unexpected end of JSON input") eq_refl).
Defined.

Lemma map_names_stops (l1 l2 : list value) (e : value) :
  (forall x, In x l1 -> Js.nullish x = false) ->
  Js.nullish e = true ->
  Js.Array_map (fun ing => Js.get ing "name") (l1 ++ e :: l2)
  = Abrupt (ThrownError (Js.read_of_nullish e "name")).
Proof.
  intros Hl1 He. induction l1 as [| x l1 IH]; simpl.
  - unfold Js.get. now rewrite He.
  - unfold Js.get at 1. rewrite (Hl1 x (or_introl eq_refl)). simpl.
    rewrite IH; [reflexivity |]. intros y Hy. apply Hl1. now right.
Qed.

(** X3.  With a key, an [ingredients] array that holds [null] (or
    [undefined]) is not rejected by validation: reading [name] of that
    element throws, the answer is status 500 with the text of that error,
    and the provider is not called. *)
Theorem nullish_element_answers_500
  (key : string) (w : World) (body0 e : value) (l1 l2 : list value) :
  JsString.truthy key = true ->
  request_json w = Normal body0 ->
  Js.prop body0 "ingredients" = VArr (l1 ++ e :: l2) ->
  (forall x, In x l1 -> Js.nullish x = false) ->
  Js.nullish e = true ->
  respond key w
  = {| status := 500;
       body := error_body ("Failed to generate recipe. " ++ Js.read_of_nullish e "name") |} /\
  provider_calls (trace key w) = [].
Proof.
  intros Hkey Hbody Hing Hl1 He.
  unfold respond, trace, POST. rewrite Hkey. run. rewrite Hbody. run.
  rewrite (destructure_array _ _ _ Hing). run.
  assert (Hacc : negb (Js.truthy (VArr (l1 ++ e :: l2)))
                 || negb (Js.Array_isArray (VArr (l1 ++ e :: l2)))
                 || (Js.Array_length (VArr (l1 ++ e :: l2)) =? 0)%Z = false).
  { apply accepted_iff. destruct l1; simpl; eauto. }
  rewrite Hacc. run. cbn [Js.elements].
  rewrite (map_names_stops l1 l2 e Hl1 He). run.
  split; reflexivity.
Qed.

Lemma nullish_element_answers_500_witness :
  respond "key" null_element_request
  = {| status := 500;
       body := error_body
                 "Failed to generate recipe. Cannot read properties of null (reading 'name')" |} /\
  provider_calls (trace "key" null_element_request) = [].
Proof.
  apply (nullish_element_answers_500 "key" null_element_request
           (VObj [("ingredients", VArr [VObj [("name", VStr "Rice")]; VNull])])
           VNull [VObj [("name", VStr "Rice")]] []).
  - reflexivity.
  - reflexivity.
  - reflexivity.
  - intros x [<- | []]. reflexivity.
  - reflexivity.
Defined.

(** X4.  When the provider's response has a text that is not empty,
    the answer is status 200 with that text as [recipeText]; and status 200
    is only ever answered in that case. *)
Theorem text_is_returned_with_200 (key : string) (w : World) :
  (forall req result r t,
      In (GenerateContent req) (trace key w) ->
      generateContent w req = Normal result ->
      response result = Some r ->
      text r = Normal t ->
      t <> "" ->
      respond key w = {| status := 200; body := VObj [("recipeText", VStr t)] |}) /\
  (status (respond key w) = 200%Z ->
   exists req result r t,
     In (GenerateContent req) (trace key w) /\
     generateContent w req = Normal result /\
     response result = Some r /\
     text r = Normal t /\
     t <> "" /\
     body (respond key w) = VObj [("recipeText", VStr t)]).
Proof.
  split.
  - unfold trace, respond, POST. intros req result r t Hin Hcall Hresp Htext Ht.
    destruct (JsString.truthy key); run; [| destruct Hin].
    repeat (branch; try (cbn [In] in Hin; intuition discriminate)); the_call Hin Hcall.
    all: agree Hresp; agree Htext.
    + destruct t; [congruence | discriminate].
    + reflexivity.
  - unfold trace, respond, POST.
    destruct (JsString.truthy key); run; [| discriminate].
    leaves; intros H; try discriminate H.
    eexists _, _, _, _. repeat split; try eassumption.
    + cbn [In]. right. left. reflexivity.
    + intros ->. discriminate.
Qed.

Lemma text_is_returned_with_200_witness :
  respond "key" (chicken_rice_request (returning "**Chicken & Rice**..."))
  = {| status := 200; body := VObj [("recipeText", VStr "**Chicken & Rice**...")] |}.
Proof.
  apply (proj1 (text_is_returned_with_200 "key"
                  (chicken_rice_request (returning "**Chicken & Rice**...")))
           (request_with (prompt_of "Chicken, Rice"))
           {| response := Some {| text := Normal "**Chicken & Rice**..."; candidates := None |} |}
           {| text := Normal "**Chicken & Rice**..."; candidates := None |}
           "**Chicken & Rice**...").
  - right. left. reflexivity.
  - reflexivity.
  - reflexivity.
  - reflexivity.
  - discriminate.
Defined.

(** X5.  When reading the text of the provider's response throws, the
    answer is status 500 with the detail of the thrown value after
    [Failed to generate recipe. ], logged once by the [catch] clause. *)
Theorem throwing_text_answers_500
  (key : string) (w : World) (req : GenerateContentRequest)
  (result : GenerateContentResult) (r : EnhancedResponse) (error : thrown) :
  In (GenerateContent req) (trace key w) ->
  generateContent w req = Normal result ->
  response result = Some r ->
  text r = Abrupt error ->
  respond key w
  = {| status := 500;
       body := error_body ("Failed to generate recipe. " ++ detail_of error) |} /\
  logged (trace key w) = ["Error calling Gemini API:"].
Proof.
  unfold trace, respond, POST. intros Hin Hcall Hresp Htext.
  destruct (JsString.truthy key); run; [| destruct Hin].
  repeat (branch; try (cbn [In] in Hin; intuition discriminate)); the_call Hin Hcall.
  all: agree Hresp; agree Htext.
  split; reflexivity.
Qed.

Lemma throwing_text_answers_500_witness :
  respond "key"
    (chicken_rice_request (throwing_text (ThrownError "Candidate was blocked due to SAFETY")))
  = {| status := 500;
       body := error_body
                 "Failed to generate recipe. Candidate was blocked due to SAFETY" |}.
Proof.
  apply (throwing_text_answers_500 "key"
           (chicken_rice_request
              (throwing_text (ThrownError "Candidate was blocked due to SAFETY")))
           (request_with (prompt_of "Chicken, Rice"))
           {| response := Some {| text := Abrupt (ThrownError "Candidate was blocked due to SAFETY");
                                  candidates := None |} |}
           {| text := Abrupt (ThrownError "Candidate was blocked due to SAFETY");
              candidates := None |}
           (ThrownError "Candidate was blocked due to SAFETY")).
  - right. left. reflexivity.
  - reflexivity.
  - reflexivity.
  - reflexivity.
Defined.

(** X6.  In every run the provider is called at most once; a call comes
    right after reading the body, and carries the fixed model, safety
    settings, role and generation parameters, so that only its prompt
    varies; and status 200 is never answered without a call. *)
Theorem provider_called_at_most_once (key : string) (w : World) :
  (length (provider_calls (trace key w)) <= 1)%nat /\
  (forall req,
      In req (provider_calls (trace key w)) ->
      req = request_with (prompt_text req) /\
      exists rest, trace key w = RequestJson :: GenerateContent req :: rest) /\
  (status (respond key w) = 200%Z -> provider_calls (trace key w) <> []).
Proof.
  unfold trace, respond, POST.
  destruct (JsString.truthy key); run.
  2:{ cbn [provider_calls flat_map length].
      split; [lia | split; [intros req [] | discriminate]]. }
  leaves; cbn [provider_calls flat_map app length];
    (split; [lia | split]); try discriminate.
  all: intros req Hreq; cbn [In] in Hreq;
    first [ contradiction
          | destruct Hreq as [<- | []]; split; [reflexivity | eexists; reflexivity] ].
Qed.

Lemma provider_called_at_most_once_witness :
  provider_calls (trace "key" (chicken_rice_request (returning "**Chicken & Rice**..."))) <> [].
Proof.
  apply (proj2 (proj2 (provider_called_at_most_once "key"
                         (chicken_rice_request (returning "**Chicken & Rice**..."))))).
  reflexivity.
Defined.

(** X7.  The handler writes to the console exactly once in a run that
    ends with status 500 while a key is configured, and never otherwise:
    neither the missing key nor the 400 answer is logged. *)
Theorem failures_are_logged_once (key : string) (w : World) :
  length (logged (trace key w))
  = if JsString.truthy key && (status (respond key w) =? 500)%Z then 1%nat else 0%nat.
Proof.
  unfold trace, respond, POST.
  destruct (JsString.truthy key); run; [| reflexivity].
  leaves; reflexivity.
Qed.

(** X8.  Every answer has status 200, 400 or 500; with status 200 the
    body is a [recipeText] that is not empty, and with any other status it
    is an [error] that is not empty. *)
Theorem response_is_recipe_or_error (key : string) (w : World) :
  (status (respond key w) = 200%Z \/ status (respond key w) = 400%Z
   \/ status (respond key w) = 500%Z) /\
  (status (respond key w) = 200%Z ->
   exists t, t <> "" /\ body (respond key w) = VObj [("recipeText", VStr t)]) /\
  (status (respond key w) <> 200%Z ->
   exists e, e <> "" /\ body (respond key w) = error_body e).
Proof.
  destruct (respond_shape key w) as [[H200 Hbody] | [H45 Hbody]].
  - repeat split; [now left | intros _; exact Hbody | congruence].
  - repeat split.
    + right. exact H45.
    + intros H. destruct H45 as [H' | H']; congruence.
    + intros _. exact Hbody.
Qed.

Lemma response_is_recipe_or_error_witness :
  exists t, t <> "" /\
            body (respond "key" (chicken_rice_request (returning "**Chicken & Rice**...")))
            = VObj [("recipeText", VStr t)].
Proof.
  apply (proj1 (proj2 (response_is_recipe_or_error "key"
                         (chicken_rice_request (returning "**Chicken & Rice**..."))))).
  reflexivity.
Defined.

End RouteExtras.

Module TrimFacts.
Import JsTrim StringFacts.

Lemma trimStart_skip (s : string) :
  trimStart s = match skip s with Some r => trimStart r | None => s end.
Proof.
  destruct s as [| a r]; [reflexivity |]. simpl.
  destruct (ws1 a); [reflexivity |].
  destruct r as [| b r']; [reflexivity |].
  destruct (ws2 a b); [reflexivity |].
  destruct r' as [| c r'']; [reflexivity |].
  destruct (ws3 a b c); reflexivity.
Qed.

Lemma blank_skip (s : string) :
  blank s = match s with
            | EmptyString => true
            | _ => match skip s with Some r => blank r | None => false end
            end.
Proof.
  destruct s as [| a r]; [reflexivity |]. simpl.
  destruct (ws1 a); [reflexivity |].
  destruct r as [| b r']; [reflexivity |].
  destruct (ws2 a b); [reflexivity |].
  destruct r' as [| c r'']; [reflexivity |].
  destruct (ws3 a b c); reflexivity.
Qed.

(** What [skip] takes off is one white space character. *)
Lemma skip_split (s r : string) :
  skip s = Some r ->
  exists w, s = w ++ r /\ blank w = true /\ w <> "" /\
            forall p, skip (w ++ p) = Some p.
Proof.
  destruct s as [| a [| b [| c t]]]; simpl; try discriminate.
  - destruct (ws1 a) eqn:H1; [| discriminate].
    intros E. injection E as <-. exists (String a ""). simpl. rewrite H1.
    repeat split; discriminate.
  - destruct (ws1 a) eqn:H1.
    + intros E. injection E as <-. exists (String a ""). simpl. rewrite H1.
      repeat split; discriminate.
    + destruct (ws2 a b) eqn:H2; [| discriminate].
      intros E. injection E as <-. exists (String a (String b "")). simpl.
      rewrite H1, H2. repeat split; discriminate.
  - destruct (ws1 a) eqn:H1.
    + intros E. injection E as <-. exists (String a ""). simpl. rewrite H1.
      repeat split; discriminate.
    + destruct (ws2 a b) eqn:H2.
      * intros E. injection E as <-. exists (String a (String b "")). simpl.
        rewrite H1, H2. repeat split; discriminate.
      * destruct (ws3 a b c) eqn:H3; [| discriminate].
        intros E. injection E as <-. exists (String a (String b (String c ""))). simpl.
        rewrite H1, H2, H3. repeat split; discriminate.
Qed.

Lemma string_length_app (a b : string) :
  String.length (a ++ b) = (String.length a + String.length b)%nat.
Proof. induction a as [| x a IH]; simpl; [reflexivity | now rewrite IH]. Qed.

Lemma skip_shorter (s r : string) :
  skip s = Some r -> (String.length r < String.length s)%nat.
Proof.
  intros H. destruct (skip_split s r H) as (w & -> & _ & Hw & _).
  rewrite string_length_app. destruct w; [congruence | simpl; lia].
Qed.

(** Induction along the white space at the start of a string. *)
Lemma skip_ind (P : string -> Prop) :
  (forall s, (forall r, skip s = Some r -> P r) -> P s) -> forall s, P s.
Proof.
  intros Hstep s.
  assert (H : forall n t, (String.length t < n)%nat -> P t).
  { induction n as [| n IH]; intros t Ht; [lia |].
    apply Hstep. intros r Hr. apply IH.
    apply skip_shorter in Hr. lia. }
  apply (H (S (String.length s))). lia.
Qed.

Lemma skip_app (s r p : string) : skip s = Some r -> skip (s ++ p) = Some (r ++ p).
Proof.
  intros H. destruct (skip_split s r H) as (w & -> & _ & _ & Hw).
  now rewrite append_assoc, Hw.
Qed.

Lemma blank_app (a b : string) : blank a = true -> blank (a ++ b) = blank b.
Proof.
  revert b. induction a as [a IH] using skip_ind. intros b Ha.
  destruct a as [| x a']; [reflexivity |].
  rewrite blank_skip in Ha.
  destruct (skip (String x a')) as [r |] eqn:Hs; [| discriminate].
  rewrite blank_skip. change (String x a' ++ b) with (String x (a' ++ b)).
  change (String x (a' ++ b)) with (String x a' ++ b).
  cbn [append]. change (String x (a' ++ b)) with (String x a' ++ b).
  rewrite (skip_app _ _ b Hs). now apply IH.
Qed.

Lemma blank_trimStart (s : string) : blank (trimStart s) = blank s.
Proof.
  induction s as [s IH] using skip_ind.
  rewrite trimStart_skip, (blank_skip s).
  destruct (skip s) as [r |] eqn:Hs.
  - rewrite (IH r eq_refl). destruct s; [discriminate | reflexivity].
  - rewrite blank_skip, Hs. reflexivity.
Qed.

Lemma trimEnd_empty (s : string) : trimEnd s = "" <-> blank s = true.
Proof.
  destruct s as [| a r]; [simpl; tauto |].
  cbn [trimEnd]. destruct (blank (String a r)); split; try reflexivity; discriminate.
Qed.

(** A string is blank exactly when trimming leaves nothing. *)
Lemma trim_blank (s : string) : blank s = true <-> trim s = "".
Proof. unfold trim. now rewrite trimEnd_empty, blank_trimStart. Qed.

Lemma truthy_trim (s : string) : JsString.truthy (trim s) = negb (blank s).
Proof.
  destruct (blank s) eqn:Hb.
  - apply trim_blank in Hb. now rewrite Hb.
  - destruct (trim s) eqn:Ht; [| reflexivity].
    apply trim_blank in Ht. congruence.
Qed.

Lemma trimStart_split (s : string) :
  exists pre, s = pre ++ trimStart s /\ blank pre = true.
Proof.
  induction s as [s IH] using skip_ind.
  rewrite trimStart_skip. destruct (skip s) as [r |] eqn:Hs.
  - destruct (IH r eq_refl) as (pre & Hr & Hpre).
    destruct (skip_split s r Hs) as (w & Hw & Hbw & _).
    exists (w ++ pre). split.
    + now rewrite append_assoc, <- Hr.
    + now rewrite blank_app.
  - now exists "".
Qed.

Lemma trimEnd_split (s : string) :
  exists post, s = trimEnd s ++ post /\ blank post = true.
Proof.
  induction s as [| a r (post & Hr & Hpost)]; [now exists "" |].
  cbn [trimEnd]. destruct (blank (String a r)) eqn:Hb.
  - now exists (String a r).
  - exists post. simpl. split; [now rewrite <- Hr | assumption].
Qed.

(** Trimming takes blank text off both ends and nothing else. *)
Lemma trim_split (s : string) :
  exists pre post, s = pre ++ trim s ++ post /\ blank pre = true /\ blank post = true.
Proof.
  destruct (trimStart_split s) as (pre & Hs & Hpre).
  destruct (trimEnd_split (trimStart s)) as (post & Ht & Hpost).
  exists pre, post. unfold trim. now rewrite <- Ht.
Qed.

Lemma blank_trimEnd (s : string) : blank (trimEnd s) = blank s.
Proof.
  destruct (trimEnd_split s) as (post & Hs & Hpost).
  destruct (blank (trimEnd s)) eqn:Hb.
  - rewrite Hs at 1. now rewrite blank_app.
  - destruct (blank s) eqn:Hb'; [| reflexivity].
    apply trimEnd_empty in Hb'. rewrite Hb' in Hb. discriminate.
Qed.

Lemma trimEnd_idempotent (s : string) : trimEnd (trimEnd s) = trimEnd s.
Proof.
  induction s as [| a r IH]; [reflexivity |].
  cbn [trimEnd]. destruct (blank (String a r)) eqn:Hb; [reflexivity |].
  cbn [trimEnd]. rewrite IH.
  assert (Hb' : blank (trimEnd (String a r)) = false) by now rewrite blank_trimEnd.
  cbn [trimEnd] in Hb'. rewrite Hb in Hb'. now rewrite Hb'.
Qed.

(** The text that [trimStart] leaves does not start with white space. *)
Lemma skip_trimStart (s : string) : skip (trimStart s) = None.
Proof.
  induction s as [s IH] using skip_ind.
  rewrite trimStart_skip. destruct (skip s) as [r |] eqn:Hs; [now apply IH | exact Hs].
Qed.

Lemma trimStart_fixed (s : string) : skip s = None -> trimStart s = s.
Proof. intros H. now rewrite trimStart_skip, H. Qed.

(** Neither does what is left of it after [trimEnd]. *)
Lemma skip_trimEnd (s : string) : skip s = None -> skip (trimEnd s) = None.
Proof.
  intros Hs. destruct (trimEnd_split s) as (post & Hsplit & _).
  destruct (skip (trimEnd s)) as [r |] eqn:Hr; [| reflexivity].
  apply (skip_app _ _ post) in Hr. rewrite <- Hsplit in Hr. congruence.
Qed.

Lemma trim_idempotent (s : string) : trim (trim s) = trim s.
Proof.
  unfold trim.
  rewrite (trimStart_fixed (trimEnd (trimStart s))).
  - apply trimEnd_idempotent.
  - apply skip_trimEnd, skip_trimStart.
Qed.

(** The trimmed text neither starts with white space nor ends with it. *)
Lemma trim_clean (s : string) :
  skip (trim s) = None /\
  forall u v, trim s = u ++ v -> v <> "" -> blank v = false.
Proof.
  split; [apply skip_trimEnd, skip_trimStart |].
  unfold trim. generalize (trimStart s). clear s. intros t.
  induction t as [| a r IH]; intros u v Huv Hv.
  - destruct u; [| discriminate]. simpl in Huv. congruence.
  - cbn [trimEnd] in Huv. destruct (blank (String a r)) eqn:Hb.
    + destruct u; [| discriminate]. simpl in Huv. congruence.
    + destruct u as [| x u]; simpl in Huv.
      * subst v.
        assert (E : trimEnd (String a r) = String a (trimEnd r))
          by (cbn [trimEnd]; now rewrite Hb).
        rewrite <- E. now rewrite blank_trimEnd.
      * injection Huv as _ Huv. now apply (IH u v).
Qed.

End TrimFacts.

Module PantryExtras.
Import Page Pantry Observe JsTrim TrimFacts StringFacts JsString.

Lemma ascii_lower_app (a b : string) :
  ascii_lower (a ++ b) = ascii_lower a ++ ascii_lower b.
Proof. induction a as [| c a IH]; simpl; [reflexivity | now rewrite IH]. Qed.

Lemma ascii_only_app (a b : string) :
  ascii_only (a ++ b) = ascii_only a && ascii_only b.
Proof.
  induction a as [| c a IH]; simpl; [reflexivity |].
  now rewrite IH, andb_assoc.
Qed.

Lemma includes_self (s : string) : includes s s = true.
Proof. apply includes_iff. exists "", "". simpl. now rewrite append_empty_r. Qed.

(** X9.  A new-item name that is empty or white space only is rejected:
    the handler only sets the error [Please enter an ingredient name.],
    which is then shown; the catalog, the input and the rest of the state
    stay as they are. *)
Theorem blank_name_is_rejected (w : World) (s : State) :
  blank (newItemName s) = true ->
  addItem_trace w s = [Basket (SetError (To (VStr "Please enter an ingredient name.")))] /\
  addItem w s = set_error (VStr "Please enter an ingredient name.") s /\
  errorShown (addItem w s) = true.
Proof.
  intros Hblank. unfold addItem_trace, addItem, handleAddItem.
  rewrite truthy_trim, Hblank. repeat split.
Qed.

Lemma blank_name_is_rejected_witness :
  addItem offline (set_newItemName "   " (initial 0))
  = set_error (VStr "Please enter an ingredient name.") (set_newItemName "   " (initial 0)).
Proof.
  apply (proj1 (proj2 (blank_name_is_rejected offline (set_newItemName "   " (initial 0))
                         eq_refl))).
Defined.

(** X10.  A new-item name that is not blank is added in front of the
    catalog, whose earlier entries keep their order.  The new item has the
    clock's time as its id, and its name is the typed text trimmed: the
    typed text is that name between two stretches of white space, and the
    name is not empty, does not start with a white space character and
    does not end with one.  The input is emptied, the error cleared, and
    basket, history and search term are untouched. *)
Theorem named_item_is_prepended (w : World) (s : State) :
  blank (newItemName s) = false ->
  exists item,
    ingredients (addItem w s) = item :: ingredients s /\
    id item = JsString.of_Z (Date_now w) /\
    name item = trim (newItemName s) /\
    (exists pre post,
        newItemName s = pre ++ name item ++ post /\
        blank pre = true /\ blank post = true) /\
    name item <> "" /\
    skip (name item) = None /\
    (forall u v, name item = u ++ v -> v <> "" -> blank v = false) /\
    newItemName (addItem w s) = "" /\
    error (addItem w s) = VNull /\
    basket (addItem w s) = basket s /\
    recipeHistory (addItem w s) = recipeHistory s /\
    searchTerm (addItem w s) = searchTerm s.
Proof.
  intros Hblank.
  exists {| id := JsString.of_Z (Date_now w); name := trim (newItemName s) |}.
  unfold addItem, handleAddItem. rewrite truthy_trim, Hblank. simpl.
  destruct (trim_clean (newItemName s)) as [Hstart Hend].
  repeat split; try assumption.
  - apply trim_split.
  - intros H. apply trim_blank in H. congruence.
Qed.

Lemma named_item_is_prepended_witness :
  exists item,
    ingredients (addItem offline (set_newItemName nbsp_Basil (initial 0)))
    = item :: INITIAL_INGREDIENTS /\
    id item = "0" /\
    name item = "Basil".
Proof.
  destruct (named_item_is_prepended offline (set_newItemName nbsp_Basil (initial 0)) eq_refl)
    as (item & H1 & H2 & H3 & _).
  exists item. repeat split; assumption.
Defined.

(** X11.  Adding items keeps the catalog's names well formed: if no name
    of the catalog is empty or has white space around it, the same holds
    after the add handler has run, whatever was typed. *)
Theorem catalog_names_stay_well_formed (w : World) (s : State) :
  Forall well_named (ingredients s) ->
  Forall well_named (ingredients (addItem w s)).
Proof.
  intros Hall. unfold addItem, handleAddItem. rewrite truthy_trim.
  destruct (blank (newItemName s)) eqn:Hblank; simpl; [assumption |].
  constructor; [| assumption].
  split; simpl.
  - intros H. apply trim_blank in H. congruence.
  - apply trim_idempotent.
Qed.

Lemma initial_names_well_formed : Forall well_named INITIAL_INGREDIENTS.
Proof. repeat constructor; discriminate. Qed.

Lemma catalog_names_stay_well_formed_witness :
  Forall well_named (ingredients (addItem offline (set_newItemName nbsp_Basil (initial 0)))).
Proof.
  apply (catalog_names_stay_well_formed offline (set_newItemName nbsp_Basil (initial 0))).
  exact initial_names_well_formed.
Defined.

(** X12.  After a name is typed and added, searching for a term whose
    lower case is that of the trimmed name (the name itself, in any letter
    case) lists the new item first, whatever the engine's [toLowerCase]
    is. *)
Theorem added_item_is_found_first
  (toLowerCase : string -> string) (w : World) (typed term : string) (s : State) :
  blank typed = false ->
  toLowerCase term = toLowerCase (trim typed) ->
  hd_error (filteredIngredients toLowerCase (search w term (typeAndAdd w typed s)))
  = Some {| id := JsString.of_Z (Date_now w); name := trim typed |}.
Proof.
  intros Hblank Hterm.
  unfold search, typeAndAdd, addItem, handleAddItem, filteredIngredients. simpl.
  rewrite truthy_trim, Hblank. simpl.
  rewrite Hterm, includes_self. reflexivity.
Qed.

Lemma added_item_is_found_first_witness :
  hd_error (filteredIngredients ascii_lower
              (search offline "BASIL" (typeAndAdd offline nbsp_Basil (initial 0))))
  = Some {| id := "0"; name := "Basil" |}.
Proof.
  apply (added_item_is_found_first ascii_lower offline nbsp_Basil "BASIL" (initial 0));
    reflexivity.
Defined.

End PantryExtras.

Module BasketExtras.
Import Page Pantry Observe ArrayFacts BasketProperties.

Lemma remove_first_found (i : string) (l1 l2 : list Ingredient) (x : Ingredient) :
  (forall y, In y l1 -> String.eqb (id y) i = false) ->
  String.eqb (id x) i = true ->
  remove_first i (l1 ++ x :: l2) = (l1 ++ l2)%list.
Proof.
  intros Hl1 Hx. induction l1 as [| y l1 IH]; simpl.
  - now rewrite Hx.
  - rewrite (Hl1 y (or_introl eq_refl)). f_equal. apply IH.
    intros z Hz. apply Hl1. now right.
Qed.

Lemma remove_first_absent (i : string) (l : list Ingredient) :
  (forall y, In y l -> String.eqb (id y) i = false) -> remove_first i l = l.
Proof.
  intros Hl. induction l as [| y l IH]; simpl; [reflexivity |].
  rewrite (Hl y (or_introl eq_refl)). f_equal. apply IH.
  intros z Hz. apply Hl. now right.
Qed.

Lemma present_or_absent (i : string) (l : list Ingredient) :
  (exists x, In x l /\ String.eqb (id x) i = true) \/
  (forall y, In y l -> String.eqb (id y) i = false).
Proof.
  induction l as [| a l [(x & Hin & Hx) | Habs]].
  - right. intros y [].
  - left. exists x. split; [now right | assumption].
  - destruct (String.eqb (id a) i) eqn:Ha.
    + left. exists a. split; [now left | assumption].
    + right. intros y [<- | Hy]; [assumption | now apply Habs].
Qed.

(** What the handler computes from the previous basket. *)
Lemma removed_basket (i : string) (l : list Ingredient) :
  (let indexToRemove := findIndex (fun item => String.eqb (id item) i) l in
   if negb (indexToRemove =? -1)%Z then
     (slice l 0 indexToRemove ++ slice_from l (indexToRemove + 1))%list
   else l) = remove_first i l.
Proof.
  cbv zeta. unfold findIndex.
  destruct (present_or_absent i l) as [Hex | Habs].
  - destruct (first_match _ l Hex) as (l1 & x & l2 & -> & Hx & Hl1).
    rewrite (findIndex_from_found _ l1 l2 x 0 Hl1 Hx). simpl.
    destruct (Z.eqb_spec (Z.of_nat (length l1)) (-1)); [lia |]. simpl.
    change (l1 ++ x :: l2)%list with (l1 ++ (x :: l2))%list at 1.
    rewrite slice_prefix, slice_from_suffix.
    symmetry. now apply remove_first_found.
  - rewrite (findIndex_from_absent _ _ 0 Habs). simpl.
    symmetry. now apply remove_first_absent.
Qed.

Lemma remove_state (w : World) (i : string) (s : State) :
  remove w i s = set_basket (remove_first i (basket s)) s.
Proof. unfold remove. simpl. now rewrite removed_basket. Qed.

Lemma remove_first_commute (a b : string) (l : list Ingredient) :
  remove_first a (remove_first b l) = remove_first b (remove_first a l).
Proof.
  induction l as [| x l IH]; simpl; [reflexivity |].
  destruct (String.eqb (id x) b) eqn:Hb, (String.eqb (id x) a) eqn:Ha;
    simpl; rewrite ?Ha, ?Hb; try reflexivity.
  - apply String.eqb_eq in Ha, Hb. congruence.
  - now rewrite IH.
Qed.

Lemma remove_first_app_absent (i : string) (l : list Ingredient) (x : Ingredient) :
  (forall y, In y l -> String.eqb (id y) i = false) ->
  String.eqb (id x) i = true ->
  remove_first i (l ++ [x]) = l.
Proof.
  intros Hl Hx. rewrite (remove_first_found i l [] x Hl Hx). apply app_nil_r.
Qed.

Lemma remove_first_app_present (i : string) (l r : list Ingredient) :
  (exists x, In x l /\ String.eqb (id x) i = true) ->
  remove_first i (l ++ r) = (remove_first i l ++ r)%list.
Proof.
  intros (x & Hin & Hx). induction l as [| y l IH]; [destruct Hin |]. simpl.
  destruct (String.eqb (id y) i) eqn:Hy; [reflexivity |].
  simpl. f_equal. apply IH. destruct Hin as [-> | Hin]; [congruence | assumption].
Qed.

Lemma remove_first_filter (i : string) (l : list Ingredient) :
  filter (fun x => negb (String.eqb (id x) i)) (remove_first i l)
  = filter (fun x => negb (String.eqb (id x) i)) l.
Proof.
  induction l as [| x l IH]; simpl; [reflexivity |].
  destruct (String.eqb (id x) i) eqn:Hx; simpl; [reflexivity |].
  now rewrite Hx, IH.
Qed.

(** X13.  Clearing empties the basket and clears the error, whatever
    they were, and leaves catalog and history alone; the generate button is
    then disabled and the clear button hidden, and a generation started
    all the same sends no request and changes neither basket nor history. *)
Theorem cleared_basket_cannot_generate (w w' : World) (s : State) :
  basket (clear w s) = [] /\
  error (clear w s) = VNull /\
  errorShown (clear w s) = false /\
  ingredients (clear w s) = ingredients s /\
  recipeHistory (clear w s) = recipeHistory s /\
  generateDisabled (clear w s) = true /\
  clearAllShown (clear w s) = false /\
  Observe.fetches (generate_trace w' (clear w s)) = [] /\
  basket (generate w' (clear w s)) = [] /\
  recipeHistory (generate w' (clear w s)) = recipeHistory s.
Proof.
  unfold generateDisabled. repeat split. simpl. apply orb_true_r.
Qed.

(** X14.  Adding an item to the basket and then removing its id gives
    back the basket as it was, when that id was not in the basket; when it
    was, the removal takes the earlier entry and the added one stays at the
    end. *)
Theorem add_then_remove (w : World) (item : Ingredient) (s : State) :
  (~ In (id item) (map id (basket s)) ->
   basket (remove w (id item) (add w item s)) = basket s) /\
  (In (id item) (map id (basket s)) ->
   basket (remove w (id item) (add w item s))
   = (basket (remove w (id item) s) ++ [item])%list).
Proof.
  rewrite !remove_state. unfold add. simpl. split.
  - intros Habs. apply remove_first_app_absent; [| apply String.eqb_refl].
    now apply id_absent.
  - intros Hin. apply remove_first_app_present.
    apply in_map_iff in Hin. destruct Hin as (x & Hx & Hin).
    exists x. split; [assumption | now apply String.eqb_eq].
Qed.

Lemma add_then_remove_witness :
  basket (remove offline "3" (add offline {| id := "3"; name := "Tomatoes" |} chicken_rice))
  = basket chicken_rice /\
  basket (remove offline "1" (add offline {| id := "1"; name := "Chicken" |} chicken_rice))
  = [ {| id := "2"; name := "Rice" |}; {| id := "1"; name := "Chicken" |} ].
Proof.
  split.
  - apply (proj1 (add_then_remove offline {| id := "3"; name := "Tomatoes" |} chicken_rice)).
    simpl. intros [H | [H | []]]; discriminate H.
  - apply (proj2 (add_then_remove offline {| id := "1"; name := "Chicken" |} chicken_rice)).
    simpl. now left.
Defined.

(** X15.  Two removals from the basket commute: removing two ids in
    either order gives the same state. *)
Theorem removals_commute (w : World) (a b : string) (s : State) :
  remove w a (remove w b s) = remove w b (remove w a s).
Proof.
  rewrite !remove_state. unfold set_basket. simpl.
  now rewrite remove_first_commute.
Qed.

(** X16.  A removal never touches the entries that have another id (they
    stay, in their order), never lengthens the basket, and, unlike adding,
    leaves the error as it is. *)
Theorem removal_leaves_other_ids (w : World) (i : string) (s : State) :
  filter (fun x => negb (String.eqb (id x) i)) (basket (remove w i s))
  = filter (fun x => negb (String.eqb (id x) i)) (basket s) /\
  (length (basket (remove w i s)) <= length (basket s))%nat /\
  error (remove w i s) = error s.
Proof.
  rewrite remove_state. simpl. split; [apply remove_first_filter |].
  split; [| reflexivity].
  induction (basket s) as [| x l IH]; simpl; [lia |].
  destruct (String.eqb (id x) i); simpl; lia.
Qed.

End BasketExtras.

Module GenerationExtras.
Import Page Pantry Observe GenerationProperties.

Ltac prun :=
  cbn [negb Page.exec actions_of try_catchE try_finally bind bindE ret perform
       Page.reply Page.step next fetches flat_map app message_of] in *.

Ltac pbranch :=
  match goal with
  | |- context [bind (match ?x with _ => _ end) _] => destruct x eqn:?
  | |- context [bind (if ?x then _ else _) _] => destruct x eqn:?
  | |- context [bindE (match ?x with _ => _ end) _] => destruct x eqn:?
  | |- context [bindE (if ?x then _ else _) _] => destruct x eqn:?
  | |- context [Page.exec _ (match ?x with _ => _ end) _] => destruct x eqn:?
  | |- context [Page.exec _ (if ?x then _ else _) _] => destruct x eqn:?
  | |- context [actions_of _ (match ?x with _ => _ end)] => destruct x eqn:?
  | |- context [actions_of _ (if ?x then _ else _)] => destruct x eqn:?
  end; prun.

Ltac start Hne :=
  unfold generate, generate_trace, handleGenerateRecipe;
  rewrite (nonempty_length _ Hne); prun.

(** X17.  A generation started with a basket that is not empty sends
    exactly one request, to the endpoint, after clearing the error and
    setting the generating flag; while it is suspended the generate button
    is disabled; and whatever the answer is (a rejection, a body that is not
    JSON, any status) its last action resets the flag, so the page is never
    left generating. *)
Theorem generation_sends_one_request_and_ends (w : World) (s : State) :
  basket s <> [] ->
  fetches (generate_trace w s) = [(endpoint, request_for s)] /\
  (exists rest,
      generate_trace w s
      = SetError (To VNull) :: SetIsGenerating (To true)
          :: Fetch endpoint (request_for s) :: rest) /\
  generateDisabled (suspended s) = true /\
  last (generate_trace w s) DateNow = SetIsGenerating (To false) /\
  isGenerating (generate w s) = false.
Proof.
  intros Hne.
  unfold generate, generate_trace, handleGenerateRecipe.
  rewrite (nonempty_length _ Hne). prun.
  repeat pbranch; (split; [reflexivity |]); (split; [eexists; reflexivity |]);
    (split; [reflexivity |]); split; reflexivity.
Qed.

Lemma generation_sends_one_request_and_ends_witness :
  fetches (generate_trace offline chicken_rice) = [(endpoint, request_for chicken_rice)] /\
  isGenerating (generate offline chicken_rice) = false.
Proof.
  destruct (generation_sends_one_request_and_ends offline chicken_rice ltac:(discriminate))
    as (Hfetches & _ & _ & _ & Hflag).
  split; assumption.
Defined.

(** X18.  In every run of the generation handler the history and the
    basket are written together or not at all, and the only write to the
    basket empties it. *)
Theorem history_and_basket_are_written_together (w : World) (s : State) :
  length (filter writes_history (generate_trace w s))
  = length (filter writes_basket (generate_trace w s)) /\
  (filter writes_basket (generate_trace w s) = [] \/
   filter writes_basket (generate_trace w s) = [SetBasket (To [])]).
Proof.
  unfold generate_trace, handleGenerateRecipe.
  destruct (Z.of_nat (length (basket s)) =? 0)%Z; prun.
  - split; [reflexivity | now left].
  - repeat pbranch; (split; [reflexivity |]);
      first [now left | now right].
Qed.

(** X19.  When the request itself fails (the [fetch] is rejected with an
    error) or the response is not JSON, the handler shows the message of
    that error, or the generic text when the message is empty, and writes
    neither basket nor history. *)
Theorem failed_request_shows_its_message (w : World) (s : State) (m : string) :
  basket s <> [] ->
  (fetch w endpoint (request_for s) = Abrupt (ThrownError m) ->
   generate w s
   = set_isGenerating false
       (set_error (VStr (shown m))
          (meanwhile w (Fetch endpoint (request_for s)) (suspended s)))) /\
  (forall r,
      fetch w endpoint (request_for s) = Normal r ->
      json r = Abrupt (ThrownError m) ->
      generate w s = set_isGenerating false (set_error (VStr (shown m)) (resumed w s r))).
Proof.
  intros Hne. split.
  - intros Hfetch. unfold endpoint, request_for in Hfetch.
    start Hne. rewrite Hfetch. prun.
    unfold shown. destruct m; reflexivity.
  - intros r Hfetch Hjson. unfold endpoint, request_for in Hfetch.
    start Hne. rewrite Hfetch. prun. rewrite Hjson. prun.
    unfold shown. destruct m; reflexivity.
Qed.

Lemma failed_request_shows_its_message_witness :
  generate offline chicken_rice
  = set_isGenerating false (set_error (VStr "Failed to fetch") chicken_rice).
Proof.
  apply (proj1 (failed_request_shows_its_message offline chicken_rice "Failed to fetch"
                  ltac:(discriminate)) eq_refl).
Defined.

(** X20.  A response that is not [ok] and carries no error text is shown
    as [HTTP error! status: ] followed by the status code. *)
Theorem failed_status_without_error_text
  (w : World) (s : State) (r : Response) (data : value) :
  basket s <> [] ->
  fetch w endpoint (request_for s) = Normal r ->
  json r = Normal data ->
  ok r = false ->
  Js.nullish data = false ->
  Js.truthy (Js.prop data "error") = false ->
  generate w s
  = set_isGenerating false
      (set_error (VStr ("HTTP error! status: " ++ JsString.of_Z (status r)))
         (resumed w s r)).
Proof.
  intros Hne Hfetch Hjson Hok Hdata Herror. unfold endpoint, request_for in Hfetch.
  start Hne. rewrite Hfetch. prun. rewrite Hjson. prun. rewrite Hok. prun.
  unfold Js.get. rewrite Hdata, Herror. prun. reflexivity.
Qed.

Lemma failed_status_without_error_text_witness :
  generate (answered (Normal {| status := 502; json := Normal (VObj []) |})) chicken_rice
  = set_isGenerating false (set_error (VStr "HTTP error! status: 502") chicken_rice).
Proof.
  apply (failed_status_without_error_text
           (answered (Normal {| status := 502; json := Normal (VObj []) |}))
           chicken_rice {| status := 502; json := Normal (VObj []) |} (VObj []));
    try reflexivity.
  discriminate.
Defined.

(** X21.  With a user who does nothing meanwhile, a generation is all or
    nothing, whatever the answer: either basket and history are exactly as
    before, or the basket is empty, no error is set and the history is the
    one before with one recipe in front that holds the basket of the call.
    The catalog is never changed. *)
Theorem generation_is_all_or_nothing (w : World) (s : State) :
  idle w ->
  ingredients (generate w s) = ingredients s /\
  ((basket (generate w s) = basket s /\ recipeHistory (generate w s) = recipeHistory s) \/
   (basket (generate w s) = [] /\
    error (generate w s) = VNull /\
    exists recipe,
      recipeHistory (generate w s) = recipe :: recipeHistory s /\
      ingredientsUsed recipe = basket s)).
Proof.
  intros Hidle.
  unfold generate, handleGenerateRecipe.
  destruct (Z.of_nat (length (basket s)) =? 0)%Z; prun.
  - split; [reflexivity | left; split; reflexivity].
  - repeat pbranch; rewrite ?Hidle; (split; [reflexivity |]);
      first [ left; split; reflexivity
            | right; split; [reflexivity | split; [reflexivity |]];
              eexists; split; reflexivity ].
Qed.

Lemma generation_is_all_or_nothing_witness :
  (basket (generate offline chicken_rice) = basket chicken_rice /\
   recipeHistory (generate offline chicken_rice) = recipeHistory chicken_rice) \/
  (basket (generate offline chicken_rice) = [] /\
   error (generate offline chicken_rice) = VNull /\
   exists recipe,
     recipeHistory (generate offline chicken_rice) = recipe :: recipeHistory chicken_rice /\
     ingredientsUsed recipe = basket chicken_rice).
Proof.
  apply (generation_is_all_or_nothing offline chicken_rice). intros a st. reflexivity.
Defined.

End GenerationExtras.

Module EndToEndExtras.
Import Page GenerationProperties.

Lemma basket_names (l : list Ingredient) :
  map Route.name_text (map ingredient_json l) = map name l.
Proof. induction l as [| x l IH]; simpl; [reflexivity | now rewrite IH]. Qed.

Lemma basket_loosely_named (l : list Ingredient) :
  forall e, In e (map ingredient_json l) -> Route.loosely_named e.
Proof.
  intros e He. apply in_map_iff in He. destruct He as (x & <- & _).
  split; [reflexivity | right; now exists (name x)].
Qed.

(** X22.  The request that the page sends for a basket that is not empty
    always passes the route's validation (it is never answered 400), and
    with a key the prompt sent to the provider lists the names of the
    basket, in the basket's order, joined by a comma and a space. *)
Theorem page_request_passes_validation
  (key : string)
  (provider : Route.GenerateContentRequest -> Completion Route.GenerateContentResult)
  (s : State) :
  basket s <> [] ->
  Route.status (Route.respond key (request_world provider s)) <> 400%Z /\
  (JsString.truthy key = true ->
   Route.prompts (Route.trace key (request_world provider s))
   = [Route.prompt_of (String.concat ", " (map name (basket s)))]).
Proof.
  intros Hne. split.
  - destruct (JsString.truthy key) eqn:Hkey.
    + intros H400. apply (RouteExtras.status_400_iff key _ Hkey) in H400.
      destruct H400 as (b & Hb & _ & Hno). injection Hb as <-.
      destruct (basket s) as [| x l] eqn:Hbasket; [congruence |].
      apply (Hno (ingredient_json x) (map ingredient_json l)).
      reflexivity.
    + unfold Route.respond, Route.POST. rewrite Hkey. discriminate.
  - intros Hkey. rewrite <- basket_names.
    apply (RouteProperties.prompt_sent key _ (body (request_for s))).
    + assumption.
    + reflexivity.
    + reflexivity.
    + destruct (basket s); [congruence | discriminate].
    + apply basket_loosely_named.
Qed.

Lemma page_request_passes_validation_witness :
  Route.prompts (Route.trace "key"
                   (request_world (answering (Normal "**Chicken & Rice**...") (Some "STOP"))
                      chicken_rice))
  = [Route.prompt_of "Chicken, Rice"].
Proof.
  apply (proj2 (page_request_passes_validation "key"
                  (answering (Normal "**Chicken & Rice**...") (Some "STOP")) chicken_rice
                  ltac:(discriminate)) eq_refl).
Defined.

End EndToEndExtras.

Module SearchExtras.
Import Page Pantry JsString StringFacts PantryExtras.

Lemma filter_implied {A} (p q : A -> bool) (l : list A) :
  (forall x, q x = true -> p x = true) -> filter q (filter p l) = filter q l.
Proof.
  intros Himp. induction l as [| x l IH]; simpl; [reflexivity |].
  destruct (p x) eqn:Hp; simpl.
  - now rewrite IH.
  - destruct (q x) eqn:Hq; [| exact IH].
    apply Himp in Hq. congruence.
Qed.

(** X23.  Typing more narrows the search, for terms made of ASCII
    characters: the results for an ASCII term that extends the current
    one, on either side, are the current results filtered with the longer
    term, so they keep their order, all occur in the current results, and
    are not more.  (The engine's [toLowerCase] is only known on ASCII text;
    the names of the catalog are arbitrary.) *)
Theorem longer_term_narrows_results
  (toLowerCase : string -> string) (s : State) (pre post : string) :
  lowers_ascii toLowerCase ->
  ascii_only (pre ++ searchTerm s ++ post) = true ->
  filteredIngredients toLowerCase (set_searchTerm (pre ++ searchTerm s ++ post) s)
  = filter (fun ingredient =>
              includes (toLowerCase (name ingredient))
                       (toLowerCase (pre ++ searchTerm s ++ post)))
           (filteredIngredients toLowerCase s) /\
  (forall i,
      In i (filteredIngredients toLowerCase
              (set_searchTerm (pre ++ searchTerm s ++ post) s)) ->
      In i (filteredIngredients toLowerCase s)) /\
  (length (filteredIngredients toLowerCase
             (set_searchTerm (pre ++ searchTerm s ++ post) s))
   <= length (filteredIngredients toLowerCase s))%nat.
Proof.
  intros Hlower Hascii.
  assert (Hparts : ascii_only (searchTerm s) = true).
  { rewrite !ascii_only_app in Hascii.
    apply andb_true_iff in Hascii. destruct Hascii as [_ Hascii].
    now apply andb_true_iff in Hascii. }
  assert (Heq : filteredIngredients toLowerCase
                  (set_searchTerm (pre ++ searchTerm s ++ post) s)
                = filter (fun ingredient =>
                            includes (toLowerCase (name ingredient))
                                     (toLowerCase (pre ++ searchTerm s ++ post)))
                         (filteredIngredients toLowerCase s)).
  { unfold filteredIngredients. simpl. symmetry. apply filter_implied.
    intros x Hx. apply includes_iff in Hx. destruct Hx as (a & b & Hx).
    apply includes_iff.
    rewrite (Hlower _ Hascii), !ascii_lower_app in Hx.
    rewrite (Hlower _ Hparts).
    exists (a ++ ascii_lower pre), (ascii_lower post ++ b).
    rewrite Hx. now rewrite !append_assoc. }
  split; [exact Heq | split].
  - intros i. rewrite Heq. intros Hi. now apply filter_In in Hi.
  - rewrite Heq. apply filter_length_le.
Qed.

Lemma longer_term_narrows_results_witness :
  In {| id := "2"; name := "Rice" |}
     (filteredIngredients ascii_lower (set_searchTerm "ic" (initial 0))).
Proof.
  apply (proj1 (proj2 (longer_term_narrows_results ascii_lower
                         (set_searchTerm "ic" (initial 0)) "R" "e"
                         (fun s _ => eq_refl) eq_refl))).
  vm_compute. left. reflexivity.
Defined.

End SearchExtras.
